(** * NFL spread/totals pipeline: a shallow embedding of [nfl_betting_full_auto.py]

    The script is a linear pipeline over pandas frames:
    [fetch_pbp_data] -> [calculate_epa] -> [aggregate_net_epa] ->
    [generate_betting_recommendations].

    Modelling choices, all taken from the source:
    - a frame is an ordered association list of named columns over a row
      count; a cell is a string or a binary64 number, and NaN is the missing
      value, as in pandas; the type of a column is not recorded: a column
      of numbers is read as a float64 column;
    - numbers are IEEE-754 binary64, through the executable specification of
      the Standard Library ([SpecFloat]), so [x > 0], [x > 0.05], [abs] and
      the propagation of NaN are those of the interpreter;
    - frames are objects: a function receives a reference, [df[c] = v]
      updates the object in place and [copy()] allocates a new one;
    - a raised exception is an outcome of its own; the heap survives it. *)

From Stdlib Require Import ZArith Lia Floats.
From stdpp Require Import base option list strings sorting.

Set Warnings "-inexact-float".

(** ** Binary64 arithmetic *)

Module F64.

Definition t : Type := spec_float.

Definition prec : Z := 53.
Definition emax : Z := 1024.

Definition add : t -> t -> t := SFadd prec emax.
Definition sub : t -> t -> t := SFsub prec emax.
Definition div : t -> t -> t := SFdiv prec emax.
Definition opp : t -> t := SFopp.
Definition abs : t -> t := SFabs.
Definition ltb : t -> t -> bool := SFltb.
Definition leb : t -> t -> bool := SFleb.

Definition nan : t := S754_nan.
Definition zero : t := S754_zero false.

Definition is_nan (x : t) : bool :=
  match x with S754_nan => true | _ => false end.

(** Conversion of a row count (an int64 in the frame) to binary64, rounding
    to nearest even as the division [float / int] does. *)
Definition of_nat (n : nat) : t := binary_normalize prec emax (Z.of_nat n) 0 false.

(** The decimal literals of the script, read as the interpreter reads
    them: the nearest binary64 value. *)
Definition lit_0_0 : t := Eval vm_compute in Prim2SF 0.0%float.
Definition lit_0_05 : t := Eval vm_compute in Prim2SF 0.05%float.
Definition lit_0_03 : t := Eval vm_compute in Prim2SF 0.03%float.
Definition lit_0_08 : t := Eval vm_compute in Prim2SF 0.08%float.
Definition lit_m0_02 : t := Eval vm_compute in Prim2SF (-0.02)%float.
Definition lit_m0_01 : t := Eval vm_compute in Prim2SF (-0.01)%float.
Definition lit_m0_03 : t := Eval vm_compute in Prim2SF (-0.03)%float.
Definition lit_0_1 : t := Eval vm_compute in Prim2SF 0.1%float.
Definition lit_0_2 : t := Eval vm_compute in Prim2SF 0.2%float.
Definition lit_0_3 : t := Eval vm_compute in Prim2SF 0.3%float.
Definition lit_0_6 : t := Eval vm_compute in Prim2SF 0.6%float.
Definition lit_1e_9 : t := Eval vm_compute in Prim2SF 1e-9%float.

(** [x > 0] for a number that is not NaN: strictly positive finite, or
    plus infinity. *)
Definition positive (x : t) : Prop :=
  match x with
  | S754_finite false _ _ | S754_infinity false => True
  | _ => False
  end.

End F64.

Abbreviation float64 := F64.t.

#[global] Instance float64_eq_dec : EqDecision float64.
Proof. unfold F64.t. solve_decision. Defined.

(** ** Cells, columns, frames *)

Inductive value : Type :=
| VStr (s : string)
| VNum (x : float64).

#[global] Instance value_eq_dec : EqDecision value.
Proof. solve_decision. Defined.

Abbreviation Series := (list value).

(** [data] keeps the columns in the order of [df.columns]; every column of a
    well-formed frame has [nrows] cells. *)
Record DataFrame : Type := mkDataFrame {
  nrows : nat;
  data : list (string * Series)
}.

Definition wf (df : DataFrame) : Prop :=
  Forall (fun c => length (snd c) = nrows df) (data df).

Definition columns (df : DataFrame) : list string := map fst (data df).

(** [df.empty]: one of the two axes has length 0. *)
Definition empty (df : DataFrame) : bool :=
  (nrows df =? 0) || (length (data df) =? 0).

Definition has_column (c : string) (df : DataFrame) : bool :=
  existsb (String.eqb c) (columns df).

Fixpoint lookup_col (c : string) (cs : list (string * Series)) : option Series :=
  match cs with
  | [] => None
  | (c', s) :: tl => if String.eqb c c' then Some s else lookup_col c tl
  end.

(** [df[c] = s] replaces the column in place when the label exists and
    appends it otherwise. *)
Fixpoint assign_col (c : string) (s : Series) (cs : list (string * Series))
  : list (string * Series) :=
  match cs with
  | [] => [(c, s)]
  | (c', s') :: tl =>
      if String.eqb c c' then (c', s) :: tl else (c', s') :: assign_col c s tl
  end.

Definition set_column (c : string) (s : Series) (df : DataFrame) : DataFrame :=
  mkDataFrame (nrows df) (assign_col c s (data df)).

(** [df[c] = scalar] broadcasts the scalar over the index. *)
Definition set_scalar (c : string) (v : value) (df : DataFrame) : DataFrame :=
  set_column c (replicate (nrows df) v) df.

(** ** Exceptions, objects and the heap *)

(** The exceptions a handler [except Exception] catches.  [KeyError c] is a
    [KeyError] about the label [c], however the message is worded. *)
Inductive exn : Type :=
| KeyError (label : string)
| TypeError
| ValueError (msg : string)
| OtherError (msg : string).

Inductive outcome (A : Type) : Type :=
| Ok (a : A)
| Raise (e : exn).
Arguments Ok {A} a.
Arguments Raise {A} e.

(** A computation over a state [S]: it returns or raises, and the state it
    leaves is observable in both cases. *)
Definition M (S A : Type) : Type := S -> outcome A * S.

Definition ret {S A} (a : A) : M S A := fun s => (Ok a, s).

Definition raise {S A} (e : exn) : M S A := fun s => (Raise e, s).

Definition bind {S A B} (m : M S A) (k : A -> M S B) : M S B :=
  fun s =>
    match m s with
    | (Ok a, s') => k a s'
    | (Raise e, s') => (Raise e, s')
    end.

(** [try: m except Exception as e: h e]. *)
Definition try_except {S A} (m : M S A) (h : exn -> M S A) : M S A :=
  fun s =>
    match m s with
    | (Ok a, s') => (Ok a, s')
    | (Raise e, s') => h e s'
    end.

Definition lift {S A} (o : outcome A) : M S A := fun s => (o, s).

Notation "'let*' x ':=' m 'in' k" := (bind m (fun x => k))
  (at level 10, x name, m at level 100, k at level 200).
Notation "m '>>' k" := (bind m (fun _ => k))
  (at level 100, k at level 200, right associativity).

(** A frame object lives in the heap at an address; [alloc] puts a new
    object after the existing ones. *)
Definition ref : Type := nat.
Abbreviation heap := (list DataFrame).
Abbreviation Py := (M heap).

Definition alloc (d : DataFrame) : Py ref :=
  fun h => (Ok (length h), h ++ [d]).

(** Reading through an address that holds no object cannot happen for a
    reference obtained from [alloc]; the model raises. *)
Definition load (r : ref) : Py DataFrame :=
  fun h =>
    match h !! r with
    | Some d => (Ok d, h)
    | None => (Raise (OtherError "no object at this address"), h)
    end.

Definition store (r : ref) (d : DataFrame) : Py unit :=
  fun h => (Ok tt, <[r := d]> h).

(** [df.empty] *)
Definition df_empty (df : ref) : Py bool :=
  let* d := load df in ret (empty d).

(** [c in df.columns] *)
Definition in_columns (c : string) (df : ref) : Py bool :=
  let* d := load df in ret (has_column c d).

(** [df[c]], [KeyError] when the label is absent *)
Definition getitem (df : ref) (c : string) : Py Series :=
  let* d := load df in
  match lookup_col c (data d) with
  | Some s => ret s
  | None => raise (KeyError c)
  end.

(** [df[c] = s], in place *)
Definition setitem (df : ref) (c : string) (s : Series) : Py unit :=
  let* d := load df in store df (set_column c s d).

(** [df[c] = scalar], in place *)
Definition setitem_scalar (df : ref) (c : string) (v : value) : Py unit :=
  let* d := load df in store df (set_scalar c v d).

(** [df.copy()] *)
Definition copy (df : ref) : Py ref :=
  let* d := load df in alloc d.

Fixpoint select_cols (cs : list string) (d : DataFrame)
  : outcome (list (string * Series)) :=
  match cs with
  | [] => Ok []
  | c :: tl =>
      match lookup_col c (data d) with
      | None => Raise (KeyError c)
      | Some s =>
          match select_cols tl d with
          | Ok rest => Ok ((c, s) :: rest)
          | Raise e => Raise e
          end
      end
  end.

(** [df[[c1, ..., cn]]]: a new frame with these columns in this order *)
Definition select (df : ref) (cs : list string) : Py ref :=
  let* d := load df in
  let* cols := lift (select_cols cs d) in
  alloc (mkDataFrame (nrows d) cols).

(** ** Cell-wise operations on a column *)

Fixpoint map_cells {A : Type} (f : A -> outcome value) (l : list A)
  : outcome Series :=
  match l with
  | [] => Ok []
  | a :: tl =>
      match f a with
      | Raise e => Raise e
      | Ok w =>
          match map_cells f tl with
          | Ok rest => Ok (w :: rest)
          | Raise e => Raise e
          end
      end
  end.

(** [s.apply(f)] *)
Definition series_apply (f : value -> outcome value) (s : Series) : outcome Series :=
  map_cells f s.

(** A missing cell: NaN. *)
Definition is_missing (v : value) : bool :=
  match v with
  | VNum x => F64.is_nan x
  | VStr _ => false
  end.

(** [a - b] on two cells.  Two numbers give their binary64 difference.  When
    a column holds a string, pandas subtracts the cells as objects, and only
    on the rows where no side is missing: a row with a missing side gets NaN
    whatever faces it, and a string facing a cell that is not missing is a
    [TypeError]. *)
Definition cell_sub (ab : value * value) : outcome value :=
  match ab with
  | (VNum x, VNum y) => Ok (VNum (F64.sub x y))
  | (x, y) =>
      if is_missing x || is_missing y then Ok (VNum F64.nan) else Raise TypeError
  end.

(** [a - b] on two columns of one frame, row by row *)
Definition series_sub (a b : Series) : outcome Series :=
  map_cells cell_sub (zip a b).

(** [abs(x)] on a cell *)
Definition cell_abs (v : value) : outcome value :=
  match v with
  | VNum x => Ok (VNum (F64.abs x))
  | VStr _ => Raise TypeError
  end.

(** ** Configuration *)

Definition LATEST_AVAILABLE_SEASON : Z := 2024.
Definition INITIAL_EPA : float64 := F64.lit_0_0.

(** ** [calculate_epa] *)

Definition calculate_epa (pbp_data : ref) : Py ref :=
  let* is_empty := df_empty pbp_data in
  if is_empty then
    setitem_scalar pbp_data "epa" (VNum INITIAL_EPA) >>
    setitem_scalar pbp_data "defteam" (VStr "DEF") >>
    setitem_scalar pbp_data "posteam" (VStr "OFF") >>
    setitem_scalar pbp_data "game_id" (VStr "MOCK") >>
    ret pbp_data
  else
    let* has_ep := in_columns "ep" pbp_data in
    let* has_ep_before := in_columns "ep_before" pbp_data in
    if negb has_ep || negb has_ep_before then
      setitem_scalar pbp_data "epa" (VNum INITIAL_EPA) >>
      (let* has_defteam := in_columns "defteam" pbp_data in
       if negb has_defteam
       then setitem_scalar pbp_data "defteam" (VStr "DEF") else ret tt) >>
      (let* has_posteam := in_columns "posteam" pbp_data in
       if negb has_posteam
       then setitem_scalar pbp_data "posteam" (VStr "OFF") else ret tt) >>
      (let* has_game_id := in_columns "game_id" pbp_data in
       if negb has_game_id
       then setitem_scalar pbp_data "game_id" (VStr "MOCK") else ret tt) >>
      ret pbp_data
    else
      let* ep := getitem pbp_data "ep" in
      let* ep_before := getitem pbp_data "ep_before" in
      let* epa := lift (series_sub ep ep_before) in
      setitem pbp_data "epa" epa >>
      ret pbp_data.

(** The first two branches as updates of the frame held by [pbp_data]: the
    four assignments of the empty branch; the assignment and the three
    conditional backfills of the missing-schema branch. *)
Definition mock_columns (d : DataFrame) : DataFrame :=
  set_scalar "game_id" (VStr "MOCK")
    (set_scalar "posteam" (VStr "OFF")
       (set_scalar "defteam" (VStr "DEF")
          (set_scalar "epa" (VNum INITIAL_EPA) d))).

Definition backfill (c : string) (v : value) (d : DataFrame) : DataFrame :=
  if has_column c d then d else set_scalar c v d.

Definition placeholder_columns (d : DataFrame) : DataFrame :=
  backfill "game_id" (VStr "MOCK")
    (backfill "posteam" (VStr "OFF")
       (backfill "defteam" (VStr "DEF")
          (set_scalar "epa" (VNum INITIAL_EPA) d))).

(** ** [aggregate_net_epa] *)

(** *** Grouping

    [groupby] drops the rows whose key is missing (NaN) and compares keys by
    value: the two zeros are one key. *)
Definition group_key (v : value) : option value :=
  match v with
  | VNum S754_nan => None
  | VNum (S754_zero _) => Some (VNum F64.zero)
  | _ => Some v
  end.

Definition key : Type := value * value.

(** The key a label stands for. *)
Definition key_of (v : value) : value := default v (group_key v).

(** The label a group shows in a key column: the first cell of the column,
    in row order, that has the key of the group.  The group of the zeros is
    labelled [-0.0] when the first zero of the column is [-0.0]. *)
Definition level_label (col : Series) (k : value) : value :=
  default k (head (filter (fun a => group_key a = Some k) col)).

(** Group labels come out sorted ([sort=True]): column by column, numbers
    before strings, strings by code point.  The order decides where a row
    stands in the result, never what it holds. *)
Definition value_leb (a b : value) : bool :=
  match a, b with
  | VNum x, VNum y => F64.leb x y
  | VNum _, VStr _ => true
  | VStr _, VNum _ => false
  | VStr s, VStr t => String.leb s t
  end.

Definition key_leb (a b : key) : bool :=
  if decide (fst a = fst b) then value_leb (snd a) (snd b)
  else value_leb (fst a) (fst b).

Definition key_le (a b : key) : Prop := key_leb a b = true.

#[global] Instance key_le_dec : RelDecision key_le.
Proof. intros a b. unfold key_le. apply _. Defined.

(** The rows of the three columns read by one [groupby(...).agg(...)], each
    under its key, with the rows of a missing key dropped. *)
Fixpoint keyed_rows (k1 k2 v : Series) : list (key * value) :=
  match k1, k2, v with
  | a :: k1', b :: k2', x :: v' =>
      match group_key a, group_key b with
      | Some ka, Some kb => ((ka, kb), x) :: keyed_rows k1' k2' v'
      | _, _ => keyed_rows k1' k2' v'
      end
  | _, _, _ => []
  end.

(** ['sum'] and ['count'] need numbers: a string cell in a grouped row is a
    [TypeError]. *)
Fixpoint numeric_rows (rows : list (key * value)) : outcome (list (key * float64)) :=
  match rows with
  | [] => Ok []
  | (k, VNum x) :: tl =>
      match numeric_rows tl with
      | Ok rest => Ok ((k, x) :: rest)
      | Raise e => Raise e
      end
  | (_, VStr _) :: _ => Raise TypeError
  end.

(** ['sum'] skips the missing values of a group and ['count'] counts the
    others.  The sum of a float64 column is a compensated sum (Kahan): the
    values are added in row order from 0.0, each one first corrected by the
    rounding error of the addition before it; a compensation that comes out
    NaN, as after an infinite value, is reset to 0.0. *)
Definition kahan_step (acc : float64 * float64) (val : float64) : float64 * float64 :=
  let (sumx, compensation) := acc in
  if F64.is_nan val then acc
  else
    let y := F64.sub val compensation in
    let t := F64.add sumx y in
    let c := F64.sub (F64.sub t sumx) y in
    (t, if F64.is_nan c then F64.zero else c).

Definition agg_sum (xs : list float64) : float64 :=
  fst (fold_left kahan_step xs (F64.zero, F64.zero)).

Definition agg_count (xs : list float64) : nat :=
  length (filter (fun x => F64.is_nan x = false) xs).

(** One row of a grouped frame: the labels of the two key columns, the sum
    and the count of the values. *)
Record group : Type := mkGroup {
  group_game_id : value;
  group_team : value;
  total_epa : float64;
  plays : nat
}.

(** The key of a group, from its labels. *)
Definition group_label (g : group) : key :=
  (key_of (group_game_id g), key_of (group_team g)).

Definition group_values (k : key) (rows : list (key * float64)) : list float64 :=
  map snd (filter (fun r => fst r = k) rows).

Definition group_labels (rows : list (key * float64)) : list key :=
  merge_sort key_le (remove_dups (map fst rows)).

(** One group of the rows of the key columns [k1] and [k2]: its labels, the
    sum and the count of its values. *)
Definition group_of (k1 k2 : Series) (rows : list (key * float64)) (k : key) : group :=
  let xs := group_values k rows in
  mkGroup (level_label k1 (fst k)) (level_label k2 (snd k)) (agg_sum xs) (agg_count xs).

(** What one [groupby(...).agg(...).reset_index()] returns: a frame with the
    two key columns, one row per group; or a frame without them. *)
Inductive grouped (A : Type) : Type :=
| Keyed (rows : list A)
| Unkeyed.
Arguments Keyed {A} rows.
Arguments Unkeyed {A}.

Definition grouped_map {A B : Type} (f : A -> B) (g : grouped A) : grouped B :=
  match g with
  | Keyed rows => Keyed (map f rows)
  | Unkeyed => Unkeyed
  end.

(** The rows [groupby] makes of a list of two keys that it does not read as
    column labels: row 0 under the first name, row 1 under the second. *)
Definition listed_rows (k1 k2 : string) (v : Series) : list (key * value) :=
  zip [(VStr k1, VStr k1); (VStr k2, VStr k2)] v.

(** [df.groupby([k1, k2]).agg(total=(v, 'sum'), plays=(v, 'count')).reset_index()]

    A key that is not a column is a [KeyError], the first of the two in the
    order of the list; except on a frame of two rows, as many as there are
    keys: pandas then takes the list itself as the grouping values, one per
    row, and the call returns a frame indexed by the two names, with neither
    key column.  The value column is read in both cases. *)
Definition groupby_agg (df : DataFrame) (k1 k2 v : string) : outcome (grouped group) :=
  match lookup_col k1 (data df), lookup_col k2 (data df) with
  | Some c1, Some c2 =>
      match lookup_col v (data df) with
      | None => Raise (KeyError v)
      | Some cv =>
          match numeric_rows (keyed_rows c1 c2 cv) with
          | Raise e => Raise e
          | Ok rows => Ok (Keyed (map (group_of c1 c2 rows) (group_labels rows)))
          end
      end
  | c1, _ =>
      if nrows df =? 2 then
        match lookup_col v (data df) with
        | None => Raise (KeyError v)
        | Some cv =>
            match numeric_rows (listed_rows k1 k2 cv) with
            | Raise e => Raise e
            | Ok _ => Ok Unkeyed
            end
        end
      else Raise (KeyError (match c1 with Some _ => k2 | None => k1 end))
  end.

(** *** The left join

    [pd.merge(off, def, left_on=[game_id, posteam],
    right_on=[game_id, defteam], how='left')]: every row of the left side is
    kept, once per matching row of the right side, and once with missing
    right-hand cells when nothing matches.  Labels match by value. *)
Definition merge_left {A B : Type} (left_key : A -> key) (right_key : B -> key)
    (l : list A) (r : list B) : list (A * option B) :=
  flat_map (fun a =>
              match filter (fun b => right_key b = left_key a) r with
              | [] => [(a, None)]
              | ms => map (fun b => (a, Some b)) ms
              end) l.

Record off_row : Type := mkOff {
  off_group : group;
  off_epa_per_play : float64
}.

Record def_row : Type := mkDef {
  def_group : group;
  def_epa_per_play : float64
}.

(** The join looks the key columns up, "game_id" first: on a frame without
    them it raises. *)
Definition merge (off_epa : grouped off_row) (def_epa : grouped def_row)
  : outcome (list (off_row * option def_row)) :=
  match off_epa, def_epa with
  | Keyed l, Keyed r =>
      Ok (merge_left (fun o => group_label (off_group o))
                     (fun d => group_label (def_group d)) l r)
  | _, _ => Raise (KeyError "game_id")
  end.

Record net_row : Type := mkNet {
  net_game_id : value;
  net_posteam : value;
  net_off_epa_per_play : float64;
  net_def_epa_per_play : float64;
  net_epa_per_play : float64
}.

(** A missing right-hand cell of the join is NaN. *)
Definition right_cell (d : option def_row) : float64 :=
  match d with
  | Some d => def_epa_per_play d
  | None => F64.nan
  end.

Definition net_frame (rows : list net_row) : DataFrame :=
  mkDataFrame (length rows)
    [ ("game_id", map net_game_id rows);
      ("posteam", map net_posteam rows);
      ("off_epa_per_play", map (fun r => VNum (net_off_epa_per_play r)) rows);
      ("def_epa_per_play", map (fun r => VNum (net_def_epa_per_play r)) rows);
      ("net_epa_per_play", map (fun r => VNum (net_epa_per_play r)) rows) ].

(** [off['off_epa_per_play'] = off['off_total_epa'] / off['off_plays']] *)
Definition add_off_epa_per_play (g : group) : off_row :=
  mkOff g (F64.div (total_epa g) (F64.of_nat (plays g))).

(** [def['def_epa_per_play'] = -def['def_total_epa'] / def['def_plays']] *)
Definition add_def_epa_per_play (g : group) : def_row :=
  mkDef g (F64.div (F64.opp (total_epa g)) (F64.of_nat (plays g))).

(** [net['net_epa_per_play'] = net['off_epa_per_play'] + net['def_epa_per_play']],
    on a row of the join, followed by the choice of the five columns kept. *)
Definition add_net_epa_per_play (od : off_row * option def_row) : net_row :=
  let o := fst od in
  mkNet (group_game_id (off_group o)) (group_team (off_group o))
        (off_epa_per_play o)
        (right_cell (snd od))
        (F64.add (off_epa_per_play o) (right_cell (snd od))).

Definition aggregate_net_epa (pbp_data : ref) : Py ref :=
  let* df := load pbp_data in
  (* Offensive EPA *)
  let* off_epa := lift (groupby_agg df "game_id" "posteam" "epa") in
  let off_epa := grouped_map add_off_epa_per_play off_epa in
  (* Defensive EPA *)
  let* def_epa := lift (groupby_agg df "game_id" "defteam" "epa") in
  let def_epa := grouped_map add_def_epa_per_play def_epa in
  (* Merge offensive and defensive EPA per team *)
  let* net_epa := lift (merge off_epa def_epa) in
  let net_epa := map add_net_epa_per_play net_epa in
  (* Keep relevant columns *)
  alloc (net_frame net_epa).

(** The rows of the frame the call returns, from its two groupings;
    [aggregate_net_epa_run] below proves that this is what the function
    allocates. *)
Definition net_table (off_epa def_epa : list group) : list net_row :=
  map add_net_epa_per_play
      (merge_left (fun o => group_label (off_group o))
                  (fun d => group_label (def_group d))
                  (map add_off_epa_per_play off_epa)
                  (map add_def_epa_per_play def_epa)).

(** The returned row for the offensive group of key [k], from the columns
    [G] and [P] of the games and the offensive teams and from the grouped
    rows [ro] of the offensive side and [rd] of the defensive side: joined
    with the defensive group of the same key when some row carries it. *)
Definition joined_row (G P : Series) (ro rd : list (key * float64)) (k : key) : net_row :=
  let xs := group_values k ro in
  let ys := group_values k rd in
  let off := F64.div (agg_sum xs) (F64.of_nat (agg_count xs)) in
  let def := if decide (k ∈ map fst rd)
             then F64.div (F64.opp (agg_sum ys)) (F64.of_nat (agg_count ys))
             else F64.nan in
  mkNet (level_label G (fst k)) (level_label P (snd k)) off def (F64.add off def).

(** The key of a returned row. *)
Definition net_label (row : net_row) : key :=
  (key_of (net_game_id row), key_of (net_posteam row)).

(** A key as [keyed_rows] writes it: each component is its own key. *)
Definition canonical (k : key) : Prop :=
  group_key (fst k) = Some (fst k) /\ group_key (snd k) = Some (snd k).

(** The values of a group that are not missing. *)
Definition present (xs : list float64) : list float64 :=
  filter (fun x => F64.is_nan x = false) xs.

(** Kahan's compensated sum of a list of numbers, none of them missing, from
    a running sum and a running compensation. *)
Fixpoint compensated_sum (sumx compensation : float64) (xs : list float64) : float64 :=
  match xs with
  | [] => sumx
  | x :: tl =>
      let y := F64.sub x compensation in
      let t := F64.add sumx y in
      let c := F64.sub (F64.sub t sumx) y in
      compensated_sum t (if F64.is_nan c then F64.zero else c) tl
  end.


(** ** [generate_betting_recommendations] *)

(** The frame built when the input is empty. *)
Definition mock_recommendations : DataFrame :=
  mkDataFrame 2
    [ ("game_id", [VStr "MOCK_1"; VStr "MOCK_1"]);
      ("posteam", [VStr "TeamA"; VStr "TeamB"]);
      ("off_epa_per_play", [VNum F64.lit_0_05; VNum F64.lit_m0_02]);
      ("def_epa_per_play", [VNum F64.lit_0_03; VNum F64.lit_m0_01]);
      ("net_epa_per_play", [VNum F64.lit_0_08; VNum F64.lit_m0_03]) ].

(** [lambda x: 'Bet' if x > 0 else 'Avoid'] *)
Definition bet_favorite_of (x : value) : outcome value :=
  match x with
  | VNum x => Ok (VStr (if F64.ltb F64.zero x then "Bet" else "Avoid"))
  | VStr _ => Raise TypeError
  end.

(** [lambda x: 'Spread' if x > 0.05 else 'No Bet'] *)
Definition bet_type_of (x : value) : outcome value :=
  match x with
  | VNum x => Ok (VStr (if F64.ltb F64.lit_0_05 x then "Spread" else "No Bet"))
  | VStr _ => Raise TypeError
  end.

Definition recommendation_columns : list string :=
  ["game_id"; "posteam"; "off_epa_per_play"; "def_epa_per_play";
   "net_epa_per_play"; "bet_favorite"; "confidence"; "bet_type"].

Definition generate_betting_recommendations (net_epa : ref) : Py ref :=
  let* df := copy net_epa in
  let* is_empty := df_empty df in
  let* df := (if is_empty then alloc mock_recommendations else ret df) in
  let* net := getitem df "net_epa_per_play" in
  let* bet_favorite := lift (series_apply bet_favorite_of net) in
  setitem df "bet_favorite" bet_favorite >>
  let* net := getitem df "net_epa_per_play" in
  let* confidence := lift (series_apply cell_abs net) in
  setitem df "confidence" confidence >>
  let* confidence := getitem df "confidence" in
  let* bet_type := lift (series_apply bet_type_of confidence) in
  setitem df "bet_type" bet_type >>
  select df recommendation_columns.

(** The frame the call returns, as a function of the frame [x] that the
    local [df] is bound to after the empty check (the copy of the input, or
    the mock frame); [generate_betting_recommendations_result] below proves
    that this is what the function leaves at the address it returns. *)
Definition recommendation_frame (x : DataFrame) : outcome DataFrame :=
  match lookup_col "net_epa_per_play" (data x) with
  | None => Raise (KeyError "net_epa_per_play")
  | Some net =>
      match series_apply bet_favorite_of net with
      | Raise e => Raise e
      | Ok bet_favorite =>
          match series_apply cell_abs net with
          | Raise e => Raise e
          | Ok confidence =>
              match series_apply bet_type_of confidence with
              | Raise e => Raise e
              | Ok bet_type =>
                  match select_cols recommendation_columns
                          (set_column "bet_type" bet_type
                             (set_column "confidence" confidence
                                (set_column "bet_favorite" bet_favorite x))) with
                  | Raise e => Raise e
                  | Ok cols => Ok (mkDataFrame (nrows x) cols)
                  end
              end
          end
      end
  end.

(** ** [fetch_pbp_data]

    The upstream source, [nfl.import_pbp_data], is outside the repository: a
    request for a list of seasons returns a frame or raises, and the answer
    may depend on the requests served before.  The state of a fetch is the
    log of the requests made so far.  Console output is not modelled. *)

Definition upstream : Type := list (list Z) -> list Z -> outcome DataFrame.

Abbreviation Net := (M (list (list Z))).

Section Fetch.

Variable nfl : upstream.

Definition import_pbp_data (years : list Z) : Net DataFrame :=
  fun log => (nfl log years, log ++ [years]).

Definition fetch_pbp_data (season : Z) : Net DataFrame :=
  try_except
    (let* pbp_data := import_pbp_data [season] in
     if empty pbp_data
     then raise (ValueError "Data not available for this season")
     else ret pbp_data)
    (fun e =>
       let* pbp_data := import_pbp_data [LATEST_AVAILABLE_SEASON] in
       ret pbp_data).

End Fetch.

(** An upstream source that cannot be reached. *)
Definition offline : upstream := fun _ _ => Raise (OtherError "no connection").

(** ** Running the pipeline *)

Definition run {S A} (m : M S A) (s : S) : outcome A * S := m s.

(** The frame a computation returns, read from the heap it leaves. *)
Definition result_frame (p : outcome ref * heap) : option DataFrame :=
  match p with
  | (Ok r, h) => h !! r
  | (Raise _, _) => None
  end.

(** The rows of a frame, cell by cell, in the order of [columns]. *)
Definition row (df : DataFrame) (i : nat) : list (option value) :=
  map (fun c => snd c !! i) (data df).

(** The play records of the scenario of game G1: offence A, defence B, two
    plays with efficiency 0.1 and 0.3. *)
Definition scenario_G1 : DataFrame :=
  mkDataFrame 2
    [ ("game_id", [VStr "G1"; VStr "G1"]);
      ("posteam", [VStr "A"; VStr "A"]);
      ("defteam", [VStr "B"; VStr "B"]);
      ("epa", [VNum F64.lit_0_1; VNum F64.lit_0_3]) ].

(** The same game with a missing efficiency on the second play. *)
Definition scenario_missing_epa : DataFrame :=
  mkDataFrame 2
    [ ("game_id", [VStr "G1"; VStr "G1"]);
      ("posteam", [VStr "A"; VStr "A"]);
      ("defteam", [VStr "B"; VStr "B"]);
      ("epa", [VNum F64.lit_0_1; VNum F64.nan]) ].

(** One team on offence for three plays, with efficiencies 0.1, 0.2, 0.3. *)
Definition scenario_three_plays : DataFrame :=
  mkDataFrame 3
    [ ("game_id", [VStr "G1"; VStr "G1"; VStr "G1"]);
      ("posteam", [VStr "A"; VStr "A"; VStr "A"]);
      ("defteam", [VStr "B"; VStr "B"; VStr "B"]);
      ("epa", [VNum F64.lit_0_1; VNum F64.lit_0_2; VNum F64.lit_0_3]) ].

(** Two teams that both attack and defend in one game. *)
Definition scenario_two_sided : DataFrame :=
  mkDataFrame 3
    [ ("game_id", [VStr "G1"; VStr "G1"; VStr "G1"]);
      ("posteam", [VStr "A"; VStr "B"; VStr "A"]);
      ("defteam", [VStr "B"; VStr "A"; VStr "B"]);
      ("epa", [VNum F64.lit_0_1; VNum F64.lit_0_2; VNum F64.lit_0_3]) ].

(** [main], from the annotated plays on: the aggregation, then the
    recommendations. *)
Definition pipeline_from_epa (pbp_data : ref) : Py ref :=
  let* net_epa := aggregate_net_epa pbp_data in
  generate_betting_recommendations net_epa.


(** ** [main]

    One run threads two states: the log of the requests made to the upstream
    source and the heap of frame objects.  The frame a request returns is a
    new object.  [main] returns nothing and prints the first ten rows of the
    recommendations; the model returns the table it prints.  The message
    lines are not modelled. *)

(** The rows [0 .. n-1] of a frame: what [df.head(n)] holds. *)
Definition head_rows (n : nat) (d : DataFrame) : DataFrame :=
  mkDataFrame (Nat.min n (nrows d)) (map (fun c => (fst c, take n (snd c))) (data d)).

(** [df.head(n)]: a new frame *)
Definition head_frame (df : ref) (n : nat) : Py ref :=
  let* d := load df in alloc (head_rows n d).

Abbreviation Run := (M (list (list Z) * heap)).

Definition on_requests {A : Type} (m : Net A) : Run A :=
  fun w => let (o, log) := m (fst w) in (o, (log, snd w)).

Definition on_heap {A : Type} (m : Py A) : Run A :=
  fun w => let (o, h) := m (snd w) in (o, (fst w, h)).

Definition main (nfl : upstream) (season : Z) : Run DataFrame :=
  let* fetched := on_requests (fetch_pbp_data nfl season) in
  let* pbp_data := on_heap (alloc fetched) in
  let* pbp_data := on_heap (calculate_epa pbp_data) in
  let* net_epa := on_heap (aggregate_net_epa pbp_data) in
  let* betting_recommendations := on_heap (generate_betting_recommendations net_epa) in
  let* shown := on_heap (head_frame betting_recommendations 10) in
  on_heap (load shown).

(** The table of the two mock recommendations. *)
Definition mock_table : DataFrame :=
  mkDataFrame 2
    [ ("game_id", [VStr "MOCK_1"; VStr "MOCK_1"]);
      ("posteam", [VStr "TeamA"; VStr "TeamB"]);
      ("off_epa_per_play", [VNum F64.lit_0_05; VNum F64.lit_m0_02]);
      ("def_epa_per_play", [VNum F64.lit_0_03; VNum F64.lit_m0_01]);
      ("net_epa_per_play", [VNum F64.lit_0_08; VNum F64.lit_m0_03]);
      ("bet_favorite", [VStr "Bet"; VStr "Avoid"]);
      ("confidence", [VNum F64.lit_0_08; VNum F64.lit_0_03]);
      ("bet_type", [VStr "Spread"; VStr "No Bet"]) ].

(** The recommendations computed from the rows of an aggregated frame. *)
Definition recommended (rows : list net_row) : DataFrame :=
  mkDataFrame (length rows)
    [ ("game_id", map net_game_id rows);
      ("posteam", map net_posteam rows);
      ("off_epa_per_play", map (fun r => VNum (net_off_epa_per_play r)) rows);
      ("def_epa_per_play", map (fun r => VNum (net_def_epa_per_play r)) rows);
      ("net_epa_per_play", map (fun r => VNum (net_epa_per_play r)) rows);
      ("bet_favorite",
       map (fun r => VStr (if F64.ltb F64.zero (net_epa_per_play r)
                           then "Bet" else "Avoid")) rows);
      ("confidence", map (fun r => VNum (F64.abs (net_epa_per_play r))) rows);
      ("bet_type",
       map (fun r => VStr (if F64.ltb F64.lit_0_05 (F64.abs (net_epa_per_play r))
                           then "Spread" else "No Bet")) rows) ].

(** A number that is a zero of either sign, or NaN. *)
Definition zero_or_nan (x : float64) : Prop :=
  match x with
  | S754_zero _ | S754_nan => True
  | _ => False
  end.

(** A cell that is a string. *)
Definition is_string (v : value) : Prop :=
  match v with VStr _ => True | VNum _ => False end.

(** An upstream source that serves every season with the same table. *)
Definition serving (d : DataFrame) : upstream := fun _ _ => Ok d.

(** A table of plays that has no point-value column. *)
Definition plays_without_points : DataFrame :=
  mkDataFrame 2
    [ ("game_id", [VStr "G1"; VStr "G1"]);
      ("posteam", [VStr "A"; VStr "B"]);
      ("defteam", [VStr "B"; VStr "A"]) ].

(** Eleven plays of one game, by eleven teams, without point values. *)
Definition plays_of_eleven_teams : DataFrame :=
  let teams := ["A"; "B"; "C"; "D"; "E"; "F"; "G"; "H"; "I"; "J"; "K"] in
  mkDataFrame 11
    [ ("game_id", replicate 11 (VStr "G1"));
      ("posteam", map VStr teams);
      ("defteam", map VStr (rotate 1 teams)) ].

(** * Properties *)

(** ** Columns of a frame *)

Section Columns.

Implicit Types (c : string) (s : Series) (cs : list (string * Series)).

Lemma lookup_assign_eq c s cs : lookup_col c (assign_col c s cs) = Some s.
Proof.
  induction cs as [|[c' s'] tl IH]; simpl.
  - by rewrite String.eqb_refl.
  - destruct (String.eqb c c') eqn:E; simpl; rewrite E; auto.
Qed.

Lemma lookup_assign_ne c c' s cs :
  c <> c' -> lookup_col c' (assign_col c s cs) = lookup_col c' cs.
Proof.
  intros Hne. induction cs as [|[c0 s0] tl IH]; simpl.
  - apply String.eqb_neq in Hne. rewrite String.eqb_sym in Hne. by rewrite Hne.
  - destruct (String.eqb c c0) eqn:E; simpl.
    + apply String.eqb_eq in E. subst c0.
      destruct (String.eqb c' c) eqn:E'; [|done].
      apply String.eqb_eq in E'. congruence.
    + by rewrite IH.
Qed.

Lemma has_column_lookup c d :
  has_column c d = match lookup_col c (data d) with Some _ => true | None => false end.
Proof.
  unfold has_column, columns. induction (data d) as [|[c' s'] tl IH]; simpl; [done|].
  destruct (String.eqb c c'); auto.
Qed.

Lemma columns_assign c s cs :
  map fst (assign_col c s cs) =
  match lookup_col c cs with Some _ => map fst cs | None => map fst cs ++ [c] end.
Proof.
  induction cs as [|[c' s'] tl IH]; simpl; [done|].
  destruct (String.eqb c c'); simpl; [done|].
  rewrite IH. by destruct (lookup_col c tl).
Qed.

Lemma wf_set_column c s d :
  wf d -> length s = nrows d -> wf (set_column c s d).
Proof.
  unfold wf, set_column. simpl. intros Hwf Hlen.
  induction (data d) as [|[c' s'] tl IH]; simpl.
  - by constructor.
  - inversion Hwf; subst. destruct (String.eqb c c'); constructor; auto.
Qed.

Lemma wf_set_scalar c v d : wf d -> wf (set_scalar c v d).
Proof. intros. apply wf_set_column; [done|]. by rewrite length_replicate. Qed.

Lemma wf_backfill c v d : wf d -> wf (backfill c v d).
Proof. unfold backfill. destruct (has_column c d); auto using wf_set_scalar. Qed.

(** The frames the pipeline builds are well formed. *)
Lemma wf_mock_columns d : wf d -> wf (mock_columns d).
Proof. unfold mock_columns. auto using wf_set_scalar. Qed.

Lemma wf_placeholder_columns d : wf d -> wf (placeholder_columns d).
Proof. unfold placeholder_columns. auto using wf_set_scalar, wf_backfill. Qed.

Lemma wf_net_frame rows : wf (net_frame rows).
Proof. unfold wf, net_frame. simpl. repeat constructor; simpl; by rewrite length_map. Qed.

Lemma wf_mock_recommendations : wf mock_recommendations.
Proof. unfold wf. simpl. by repeat constructor. Qed.

Lemma wf_lookup c s d : wf d -> lookup_col c (data d) = Some s -> length s = nrows d.
Proof.
  unfold wf. induction (data d) as [|[c' s'] tl IH]; simpl; [done|].
  intros Hwf. inversion Hwf; subst.
  destruct (String.eqb c c'); [|by auto].
  intros [= <-]. done.
Qed.

End Columns.

(** ** Stepping through the heap *)

(** One statement of a sequence: run the first computation of a [bind] with
    the given equation and reduce the continuation. *)
Tactic Notation "step" uconstr(E) := unfold bind at 1; rewrite E; cbv beta iota.

Section Heap.

Implicit Types (h : heap) (r : ref) (d : DataFrame).

Lemma load_run h r d : h !! r = Some d -> load r h = (Ok d, h).
Proof. unfold load. by intros ->. Qed.

Lemma lookup_updated h r d d' : h !! r = Some d -> <[r:=d']> h !! r = Some d'.
Proof. intros H. apply list_lookup_insert_eq. by eapply lookup_lt_Some. Qed.

Lemma setitem_scalar_run h r d c v :
  h !! r = Some d ->
  setitem_scalar r c v h = (Ok tt, <[r:=set_scalar c v d]> h).
Proof. intros H. unfold setitem_scalar, bind, store. by rewrite (load_run _ _ _ H). Qed.

Lemma setitem_run h r d c s :
  h !! r = Some d ->
  setitem r c s h = (Ok tt, <[r:=set_column c s d]> h).
Proof. intros H. unfold setitem, bind, store. by rewrite (load_run _ _ _ H). Qed.

Lemma in_columns_run h r d c :
  h !! r = Some d -> in_columns c r h = (Ok (has_column c d), h).
Proof. intros H. unfold in_columns, bind, ret. by rewrite (load_run _ _ _ H). Qed.

Lemma df_empty_run h r d : h !! r = Some d -> df_empty r h = (Ok (empty d), h).
Proof. intros H. unfold df_empty, bind, ret. by rewrite (load_run _ _ _ H). Qed.

Lemma getitem_run h r d c s :
  h !! r = Some d -> lookup_col c (data d) = Some s -> getitem r c h = (Ok s, h).
Proof.
  intros H Hc. unfold getitem, bind, ret. by rewrite (load_run _ _ _ H), Hc.
Qed.

Lemma getitem_missing h r d c :
  h !! r = Some d -> lookup_col c (data d) = None ->
  getitem r c h = (Raise (KeyError c), h).
Proof.
  intros H Hc. unfold getitem, bind, raise. by rewrite (load_run _ _ _ H), Hc.
Qed.

Lemma backfill_run h r d c v :
  h !! r = Some d ->
  (let* present := in_columns c r in
   if negb present then setitem_scalar r c v else ret tt) h
  = (Ok tt, <[r:=backfill c v d]> h).
Proof.
  intros H. step (in_columns_run _ _ _ _ H).
  unfold backfill. destruct (has_column c d); simpl.
  - unfold ret. by rewrite list_insert_id.
  - by apply setitem_scalar_run.
Qed.

End Heap.

(** ** [calculate_epa], branch by branch *)

Section CalculateEpa.

Implicit Types (h : heap) (r : ref) (d : DataFrame).

Lemma calculate_epa_empty_run h r d :
  h !! r = Some d -> empty d = true ->
  run (calculate_epa r) h = (Ok r, <[r:=mock_columns d]> h).
Proof.
  intros H He. unfold run, calculate_epa.
  step (df_empty_run _ _ _ H). rewrite He.
  step (setitem_scalar_run _ _ _ "epa" (VNum INITIAL_EPA) H).
  do 3 (step (setitem_scalar_run _ _ _ _ _ (lookup_updated _ _ _ _ H));
        rewrite list_insert_insert_eq).
  reflexivity.
Qed.

Lemma calculate_epa_placeholder_run h r d :
  h !! r = Some d -> empty d = false ->
  has_column "ep" d = false \/ has_column "ep_before" d = false ->
  run (calculate_epa r) h = (Ok r, <[r:=placeholder_columns d]> h).
Proof.
  intros H He Hmiss. unfold run, calculate_epa.
  step (df_empty_run _ _ _ H). rewrite He.
  do 2 step (in_columns_run _ _ _ _ H).
  assert (negb (has_column "ep" d) || negb (has_column "ep_before" d) = true) as ->.
  { destruct Hmiss as [-> | ->]; simpl; [done | by rewrite orb_true_r]. }
  step (setitem_scalar_run _ _ _ "epa" (VNum INITIAL_EPA) H).
  do 3 (step (backfill_run _ _ _ _ _ (lookup_updated _ _ _ _ H));
        rewrite list_insert_insert_eq).
  reflexivity.
Qed.

Lemma calculate_epa_compute_run h r d ep ep_before epa :
  h !! r = Some d -> empty d = false ->
  lookup_col "ep" (data d) = Some ep ->
  lookup_col "ep_before" (data d) = Some ep_before ->
  series_sub ep ep_before = Ok epa ->
  run (calculate_epa r) h = (Ok r, <[r:=set_column "epa" epa d]> h).
Proof.
  intros H He Hep Hbefore Hsub. unfold run, calculate_epa.
  step (df_empty_run _ _ _ H). rewrite He.
  do 2 step (in_columns_run _ _ _ _ H).
  rewrite !has_column_lookup, Hep, Hbefore. cbv beta iota delta [negb orb].
  step (getitem_run _ _ _ _ _ H Hep).
  step (getitem_run _ _ _ _ _ H Hbefore).
  unfold bind at 1, lift. rewrite Hsub. cbv beta iota.
  step (setitem_run _ _ _ "epa" epa H).
  reflexivity.
Qed.

End CalculateEpa.

(** ** What the placeholder assignments leave in the frame *)

Lemma lookup_set_column c s k d :
  lookup_col k (data (set_column c s d)) =
  if decide (c = k) then Some s else lookup_col k (data d).
Proof.
  unfold set_column; simpl. case_decide.
  - subst. apply lookup_assign_eq.
  - by apply lookup_assign_ne.
Qed.

Lemma lookup_set_scalar c v k d :
  lookup_col k (data (set_scalar c v d)) =
  if decide (c = k) then Some (replicate (nrows d) v) else lookup_col k (data d).
Proof. apply lookup_set_column. Qed.

Lemma lookup_backfill c v k d :
  lookup_col k (data (backfill c v d)) =
  if decide (c = k)
  then Some (default (replicate (nrows d) v) (lookup_col k (data d)))
  else lookup_col k (data d).
Proof.
  unfold backfill. rewrite has_column_lookup.
  destruct (lookup_col c (data d)) as [s|] eqn:E.
  - case_decide; [subst; by rewrite E | done].
  - rewrite lookup_set_scalar. case_decide; [subst; by rewrite E | done].
Qed.

Lemma nrows_backfill c v d : nrows (backfill c v d) = nrows d.
Proof. unfold backfill. by destruct (has_column c d). Qed.

Lemma series_sub_numbers (post pre : list float64) :
  series_sub (map VNum post) (map VNum pre) =
  Ok (zip_with (fun a b => VNum (F64.sub a b)) post pre).
Proof.
  unfold series_sub. revert pre.
  induction post as [|a post IH]; intros [|b pre]; simpl; try done.
  by rewrite IH.
Qed.

(** C2 (amended).  On an empty input frame [calculate_epa] synthesizes no
    row: it assigns the four placeholder columns in place, each broadcast
    over the index of the input, so the returned frame has exactly as many
    rows as the input (none when the input has no rows); on each of them the
    efficiency is 0.0, the offensive team "OFF", the defensive team "DEF"
    and the game identifier "MOCK".  The other columns are untouched. *)
Theorem calculate_epa_empty_input (h : heap) (r : ref) (d : DataFrame) :
  h !! r = Some d -> empty d = true ->
  exists d',
    run (calculate_epa r) h = (Ok r, <[r:=d']> h) /\
    nrows d' = nrows d /\
    lookup_col "epa" (data d') = Some (replicate (nrows d) (VNum F64.lit_0_0)) /\
    lookup_col "posteam" (data d') = Some (replicate (nrows d) (VStr "OFF")) /\
    lookup_col "defteam" (data d') = Some (replicate (nrows d) (VStr "DEF")) /\
    lookup_col "game_id" (data d') = Some (replicate (nrows d) (VStr "MOCK")) /\
    (forall c, c ∉ ["epa"; "defteam"; "posteam"; "game_id"] ->
               lookup_col c (data d') = lookup_col c (data d)).
Proof.
  intros H He. exists (mock_columns d).
  split; [by apply calculate_epa_empty_run|].
  unfold mock_columns.
  split; [done|].
  do 4 (split; [by rewrite !lookup_set_scalar|]).
  intros c Hc. rewrite !lookup_set_scalar.
  repeat (case_decide; [subst; exfalso; apply Hc; repeat constructor|]). done.
Qed.

Lemma calculate_epa_empty_input_witness :
  let d := mkDataFrame 0 [("ep", [])] in
  [d] !! 0 = Some d /\ empty d = true /\
  exists d',
    run (calculate_epa 0) [d] = (Ok 0, <[0:=d']> [d]) /\
    nrows d' = nrows d /\
    lookup_col "epa" (data d') = Some (replicate (nrows d) (VNum F64.lit_0_0)) /\
    lookup_col "posteam" (data d') = Some (replicate (nrows d) (VStr "OFF")) /\
    lookup_col "defteam" (data d') = Some (replicate (nrows d) (VStr "DEF")) /\
    lookup_col "game_id" (data d') = Some (replicate (nrows d) (VStr "MOCK")) /\
    (forall c, c ∉ ["epa"; "defteam"; "posteam"; "game_id"] ->
               lookup_col c (data d') = lookup_col c (data d)).
Proof.
  intros d. split; [reflexivity|]. split; [reflexivity|].
  apply (calculate_epa_empty_input [d] 0 d); reflexivity.
Defined.

(** C2, as stated, fails: the empty frame (no row, no column) comes back
    with four columns and still no row, not with one synthesized row. *)
Lemma calculate_epa_empty_no_row :
  empty (mkDataFrame 0 []) = true /\
  result_frame (run (calculate_epa 0) [mkDataFrame 0 []]) =
    Some (mkDataFrame 0 [("epa", []); ("defteam", []); ("posteam", []); ("game_id", [])]) /\
  ~ (exists d', result_frame (run (calculate_epa 0) [mkDataFrame 0 []]) = Some d' /\
                nrows d' = 1 /\
                lookup_col "epa" (data d') = Some [VNum F64.lit_0_0] /\
                lookup_col "posteam" (data d') = Some [VStr "OFF"] /\
                lookup_col "defteam" (data d') = Some [VStr "DEF"] /\
                lookup_col "game_id" (data d') = Some [VStr "MOCK"]).
Proof.
  split; [reflexivity|]. split; [reflexivity|].
  intros (d' & Hd' & Hn & _). vm_compute in Hd'. injection Hd' as <-. discriminate Hn.
Qed.

(** C3.  On a non-empty frame that has both point-value columns,
    [calculate_epa] assigns to every row the binary64 difference of the
    post-play and the pre-play value, unclamped, and changes nothing else:
    same rows, same other columns, and the same column order (with "epa"
    appended when it was not there). *)
Theorem calculate_epa_difference (h : heap) (r : ref) (d : DataFrame)
    (post pre : list float64) :
  h !! r = Some d -> wf d -> empty d = false ->
  lookup_col "ep" (data d) = Some (map VNum post) ->
  lookup_col "ep_before" (data d) = Some (map VNum pre) ->
  exists epa d',
    run (calculate_epa r) h = (Ok r, <[r:=d']> h) /\
    lookup_col "epa" (data d') = Some epa /\
    length epa = nrows d /\
    (forall i, i < nrows d ->
       exists a b, post !! i = Some a /\ pre !! i = Some b /\
                   epa !! i = Some (VNum (F64.sub a b))) /\
    nrows d' = nrows d /\
    (forall c, c <> "epa" -> lookup_col c (data d') = lookup_col c (data d)) /\
    columns d' = (if has_column "epa" d then columns d else columns d ++ ["epa"]) /\
    wf d'.
Proof.
  intros H Hwf He Hpost Hpre.
  pose proof (wf_lookup _ _ _ Hwf Hpost) as Lpost.
  pose proof (wf_lookup _ _ _ Hwf Hpre) as Lpre.
  rewrite length_map in Lpost, Lpre.
  set (epa := zip_with (fun a b => VNum (F64.sub a b)) post pre).
  assert (length epa = nrows d) as Lepa.
  { unfold epa. rewrite length_zip_with. lia. }
  exists epa, (set_column "epa" epa d).
  split.
  { eapply calculate_epa_compute_run; eauto using series_sub_numbers. }
  split; [by rewrite lookup_set_column|].
  split; [done|].
  split.
  { intros i Hi.
    destruct (lookup_lt_is_Some_2 post i) as [a Ha]; [lia|].
    destruct (lookup_lt_is_Some_2 pre i) as [b Hb]; [lia|].
    exists a, b. repeat split; try done.
    unfold epa. rewrite lookup_zip_with, Ha. simpl. by rewrite Hb. }
  split; [done|].
  split.
  { intros c Hc. rewrite lookup_set_column. by case_decide. }
  split.
  { unfold columns, set_column; simpl. rewrite columns_assign, has_column_lookup.
    by destruct (lookup_col "epa" (data d)). }
  by apply wf_set_column.
Qed.

Lemma calculate_epa_difference_witness :
  let d := mkDataFrame 2 [("ep", map VNum [F64.lit_0_3; F64.lit_0_1]);
                          ("ep_before", map VNum [F64.lit_0_1; F64.lit_0_1])] in
  let post := [F64.lit_0_3; F64.lit_0_1] in
  let pre := [F64.lit_0_1; F64.lit_0_1] in
  [d] !! 0 = Some d /\ wf d /\ empty d = false /\
  lookup_col "ep" (data d) = Some (map VNum post) /\
  lookup_col "ep_before" (data d) = Some (map VNum pre) /\
  exists epa d',
    run (calculate_epa 0) [d] = (Ok 0, <[0:=d']> [d]) /\
    lookup_col "epa" (data d') = Some epa /\
    length epa = nrows d /\
    (forall i, i < nrows d ->
       exists a b, post !! i = Some a /\ pre !! i = Some b /\
                   epa !! i = Some (VNum (F64.sub a b))) /\
    nrows d' = nrows d /\
    (forall c, c <> "epa" -> lookup_col c (data d') = lookup_col c (data d)) /\
    columns d' = (if has_column "epa" d then columns d else columns d ++ ["epa"]) /\
    wf d'.
Proof.
  intros d post pre.
  assert (wf d) as Hwf by (repeat constructor).
  split; [reflexivity|]. split; [exact Hwf|]. do 3 (split; [reflexivity|]).
  apply (calculate_epa_difference [d] 0 d post pre); try reflexivity. exact Hwf.
Defined.

(** C4.  When the pre-play or the post-play column is absent, every row
    gets the placeholder efficiency 0.0.  On a non-empty frame each of the
    three key columns is backfilled with its sentinel exactly when that
    column is missing, one column at a time; a key column that is present is
    kept as it is.  The empty check comes first: on an empty frame the three
    key columns are assigned whether they were present or not. *)
Theorem calculate_epa_missing_schema (h : heap) (r : ref) (d : DataFrame) :
  h !! r = Some d ->
  has_column "ep" d = false \/ has_column "ep_before" d = false ->
  exists d',
    run (calculate_epa r) h = (Ok r, <[r:=d']> h) /\
    nrows d' = nrows d /\
    lookup_col "epa" (data d') = Some (replicate (nrows d) (VNum F64.lit_0_0)) /\
    (forall k v,
       (k, v) ∈ [("defteam", VStr "DEF"); ("posteam", VStr "OFF");
                 ("game_id", VStr "MOCK")] ->
       lookup_col k (data d') =
       if empty d then Some (replicate (nrows d) v)
       else match lookup_col k (data d) with
            | Some s => Some s
            | None => Some (replicate (nrows d) v)
            end) /\
    (forall c, c ∉ ["epa"; "defteam"; "posteam"; "game_id"] ->
               lookup_col c (data d') = lookup_col c (data d)).
Proof.
  intros H Hmiss. destruct (empty d) eqn:He.
  - exists (mock_columns d).
    split; [by apply calculate_epa_empty_run|].
    unfold mock_columns. split; [done|].
    split; [by rewrite !lookup_set_scalar|].
    split.
    + intros k v Hk.
      repeat (apply elem_of_cons in Hk as [[= -> ->]|Hk];
              [by rewrite !lookup_set_scalar|]).
      by apply elem_of_nil in Hk.
    + intros c Hc. rewrite !lookup_set_scalar.
      repeat (case_decide; [subst; exfalso; apply Hc; repeat constructor|]). done.
  - exists (placeholder_columns d).
    split; [by apply calculate_epa_placeholder_run|].
    unfold placeholder_columns. split; [by rewrite !nrows_backfill|].
    split; [by rewrite !lookup_backfill, lookup_set_scalar|].
    split.
    + intros k v Hk.
      repeat (apply elem_of_cons in Hk as [[= -> ->]|Hk];
              [rewrite !lookup_backfill, lookup_set_scalar, ?nrows_backfill;
               simpl; by destruct (lookup_col _ (data d))|]).
      by apply elem_of_nil in Hk.
    + intros c Hc. rewrite !lookup_backfill, lookup_set_scalar.
      repeat (case_decide; [subst; exfalso; apply Hc; repeat constructor|]). done.
Qed.

Lemma calculate_epa_missing_schema_witness :
  let d := mkDataFrame 2 [("ep", [VNum F64.lit_0_3; VNum F64.lit_0_1]);
                          ("posteam", [VStr "A"; VStr "B"])] in
  [d] !! 0 = Some d /\
  (has_column "ep" d = false \/ has_column "ep_before" d = false) /\
  exists d',
    run (calculate_epa 0) [d] = (Ok 0, <[0:=d']> [d]) /\
    nrows d' = nrows d /\
    lookup_col "epa" (data d') = Some (replicate (nrows d) (VNum F64.lit_0_0)) /\
    (forall k v,
       (k, v) ∈ [("defteam", VStr "DEF"); ("posteam", VStr "OFF");
                 ("game_id", VStr "MOCK")] ->
       lookup_col k (data d') =
       if empty d then Some (replicate (nrows d) v)
       else match lookup_col k (data d) with
            | Some s => Some s
            | None => Some (replicate (nrows d) v)
            end) /\
    (forall c, c ∉ ["epa"; "defteam"; "posteam"; "game_id"] ->
               lookup_col c (data d') = lookup_col c (data d)).
Proof.
  intros d. split; [reflexivity|]. split; [right; reflexivity|].
  apply (calculate_epa_missing_schema [d] 0 d); [reflexivity | right; reflexivity].
Defined.

(** ** [fetch_pbp_data] *)

(** C8 (amended).  A first request that returns a non-empty frame is
    returned unchanged, after that one request.  When the first request
    raises or returns an empty frame, exactly one further request is made,
    for season 2024, and its outcome is the outcome of the call: the frame it
    returns, empty or not, or the error it raises.  The error of the first
    request never reaches the caller; there is no third request. *)
Theorem fetch_pbp_data_fallback (nfl : upstream) (season : Z) (log : list (list Z)) :
  run (fetch_pbp_data nfl season) log =
  match nfl log [season] with
  | Ok d =>
      if empty d
      then (nfl (log ++ [[season]]) [2024%Z], log ++ [[season]; [2024%Z]])
      else (Ok d, log ++ [[season]])
  | Raise _ => (nfl (log ++ [[season]]) [2024%Z], log ++ [[season]; [2024%Z]])
  end.
Proof.
  unfold run, fetch_pbp_data, try_except, bind, import_pbp_data, ret, raise.
  unfold LATEST_AVAILABLE_SEASON.
  destruct (nfl log [season]) as [d|e]; [destruct (empty d)|];
    rewrite <- ?app_assoc; simpl; try done;
    by destruct (nfl (log ++ [[season]]) [2024%Z]).
Qed.

(** C8, as stated, fails: when the fallback request raises as well, the
    call raises; the caller gets the error of the second request. *)
Lemma fetch_pbp_data_fallback_raises :
  run (fetch_pbp_data offline 2025) [] =
    (Raise (OtherError "no connection"), [[2025%Z]; [2024%Z]]) /\
  ~ (exists d, fst (run (fetch_pbp_data offline 2025) []) = Ok d).
Proof.
  split; [reflexivity|]. intros [d Hd]. discriminate Hd.
Qed.

(** ** [generate_betting_recommendations] *)

Lemma top_lookup (h0 : heap) (x : DataFrame) : (h0 ++ [x]) !! length h0 = Some x.
Proof. by rewrite list_lookup_middle. Qed.

Lemma top_update (h0 : heap) (x x' : DataFrame) :
  <[length h0:=x']> (h0 ++ [x]) = h0 ++ [x'].
Proof. rewrite insert_app_r_alt, Nat.sub_diag; done. Qed.

Lemma copy_run (h : heap) (r : ref) (d : DataFrame) :
  h !! r = Some d -> copy r h = (Ok (length h), h ++ [d]).
Proof. intros H. unfold copy. by step (load_run _ _ _ H). Qed.

Lemma select_run (h0 : heap) (x : DataFrame) (cs : list string) :
  select (length h0) cs (h0 ++ [x]) =
  match select_cols cs x with
  | Ok cols => (Ok (S (length h0)), h0 ++ [x; mkDataFrame (nrows x) cols])
  | Raise e => (Raise e, h0 ++ [x])
  end.
Proof.
  unfold select. step (load_run _ _ _ (top_lookup h0 x)).
  unfold bind, lift, alloc. destruct (select_cols cs x); [|done].
  rewrite length_app, <- app_assoc. simpl. by rewrite Nat.add_1_r.
Qed.

(** The whole function, as the frames it builds: [x] is the frame the local
    [df] ends up bound to (the copy, or the mock frame), [h0] the heap below
    it. *)
Lemma generate_betting_recommendations_run (h : heap) (r : ref) (d : DataFrame) :
  h !! r = Some d ->
  let x := if empty d then mock_recommendations else d in
  let h0 := if empty d then h ++ [d] else h in
  run (generate_betting_recommendations r) h =
  match lookup_col "net_epa_per_play" (data x) with
  | None => (Raise (KeyError "net_epa_per_play"), h0 ++ [x])
  | Some net =>
      match series_apply bet_favorite_of net with
      | Raise e => (Raise e, h0 ++ [x])
      | Ok bet_favorite =>
          let x1 := set_column "bet_favorite" bet_favorite x in
          match series_apply cell_abs net with
          | Raise e => (Raise e, h0 ++ [x1])
          | Ok confidence =>
              let x2 := set_column "confidence" confidence x1 in
              match series_apply bet_type_of confidence with
              | Raise e => (Raise e, h0 ++ [x2])
              | Ok bet_type =>
                  let x3 := set_column "bet_type" bet_type x2 in
                  match select_cols recommendation_columns x3 with
                  | Raise e => (Raise e, h0 ++ [x3])
                  | Ok cols =>
                      (Ok (S (length h0)), h0 ++ [x3; mkDataFrame (nrows x) cols])
                  end
              end
          end
      end
  end.
Proof.
  intros H x h0. unfold run, generate_betting_recommendations.
  step (copy_run _ _ _ H).
  step (df_empty_run _ _ _ (top_lookup h d)).
  assert (forall k : ref -> Py ref,
            bind (if empty d then alloc mock_recommendations else ret (length h)) k
                 (h ++ [d]) = k (length h0) (h0 ++ [x])) as ->.
  { intros k. unfold bind, alloc, ret, h0, x. destruct (empty d); [|done].
    by rewrite <- app_assoc. }
  clearbody x h0. clear H d h r.
  destruct (lookup_col "net_epa_per_play" (data x)) as [net|] eqn:Hnet.
  2: { by step (getitem_missing _ _ _ _ (top_lookup h0 x) Hnet). }
  step (getitem_run _ _ _ _ _ (top_lookup h0 x) Hnet).
  unfold bind at 1, lift.
  destruct (series_apply bet_favorite_of net) as [bet_favorite|e]; [|done].
  cbv beta iota.
  step (setitem_run _ _ _ "bet_favorite" bet_favorite (top_lookup h0 x)).
  rewrite top_update.
  set (x1 := set_column "bet_favorite" bet_favorite x).
  assert (lookup_col "net_epa_per_play" (data x1) = Some net) as Hnet1.
  { unfold x1. by rewrite lookup_set_column. }
  step (getitem_run _ _ _ _ _ (top_lookup h0 x1) Hnet1).
  unfold bind at 1, lift.
  destruct (series_apply cell_abs net) as [confidence|e]; [|done].
  cbv beta iota.
  step (setitem_run _ _ _ "confidence" confidence (top_lookup h0 x1)).
  rewrite top_update.
  set (x2 := set_column "confidence" confidence x1).
  assert (lookup_col "confidence" (data x2) = Some confidence) as Hconf.
  { unfold x2. by rewrite lookup_set_column. }
  step (getitem_run _ _ _ _ _ (top_lookup h0 x2) Hconf).
  unfold bind at 1, lift.
  destruct (series_apply bet_type_of confidence) as [bet_type|e]; [|done].
  cbv beta iota.
  step (setitem_run _ _ _ "bet_type" bet_type (top_lookup h0 x2)).
  rewrite top_update.
  rewrite select_run. done.
Qed.

Lemma top_result (h0 : heap) (x y : DataFrame) :
  (h0 ++ [x; y]) !! S (length h0) = Some y.
Proof.
  change [x; y] with ([x] ++ [y]). rewrite app_assoc.
  replace (S (length h0)) with (length (h0 ++ [x])); [apply top_lookup|].
  rewrite length_app. simpl. lia.
Qed.

Lemma select_cols_labels (cs : list string) (x : DataFrame) cols :
  select_cols cs x = Ok cols -> map fst cols = cs.
Proof.
  revert cols. induction cs as [|c cs IH]; simpl; intros cols.
  - by intros [= <-].
  - destruct (lookup_col c (data x)); [|done].
    destruct (select_cols cs x) as [rest|]; [|done].
    intros [= <-]. simpl. by rewrite (IH rest).
Qed.

Lemma select_cols_lookup (cs : list string) (x : DataFrame) cols c :
  select_cols cs x = Ok cols -> c ∈ cs ->
  lookup_col c cols = lookup_col c (data x) /\ is_Some (lookup_col c (data x)).
Proof.
  revert cols. induction cs as [|c0 cs IH]; simpl; intros cols Hsel Hin.
  - by apply elem_of_nil in Hin.
  - destruct (lookup_col c0 (data x)) as [s0|] eqn:E0; [|done].
    destruct (select_cols cs x) as [rest|]; [|done].
    injection Hsel as <-. simpl.
    destruct (String.eqb c c0) eqn:Ec.
    + apply String.eqb_eq in Ec. subst. rewrite E0. eauto.
    + apply elem_of_cons in Hin as [->|Hin]; [by rewrite String.eqb_refl in Ec|].
      by apply IH.
Qed.

Lemma select_cols_total (cs : list string) (x : DataFrame) :
  Forall (fun c => is_Some (lookup_col c (data x))) cs ->
  exists cols, select_cols cs x = Ok cols.
Proof.
  induction 1 as [|c cs [s Hs] _ [rest IH]]; simpl; [by eexists|].
  rewrite Hs, IH. by eexists.
Qed.

Lemma generate_betting_recommendations_heap (h : heap) (r : ref) :
  exists fresh, snd (run (generate_betting_recommendations r) h) = h ++ fresh.
Proof.
  destruct (h !! r) as [d|] eqn:H.
  - rewrite (generate_betting_recommendations_run _ _ _ H). cbv zeta.
    assert (exists l, (if empty d then h ++ [d] else h) = h ++ l) as [l ->].
    { destruct (empty d); [by exists [d] | exists []; by rewrite app_nil_r]. }
    generalize (if empty d then mock_recommendations else d). intros x.
    repeat case_match; simpl; rewrite <- app_assoc; by eexists.
  - exists []. unfold run, generate_betting_recommendations, copy, bind, load.
    rewrite H. simpl. by rewrite app_nil_r.
Qed.

(** C9.  [generate_betting_recommendations] works on a copy: whatever it
    returns or raises, every frame that was in the heap before the call is
    the same after it, the input first of all; the call only adds objects. *)
Theorem generate_betting_recommendations_keeps_input (h : heap) (r : ref) :
  let h' := snd (run (generate_betting_recommendations r) h) in
  h' !! r = h !! r /\
  (exists fresh, h' = h ++ fresh) /\
  (forall r' d, h !! r' = Some d -> h' !! r' = Some d).
Proof.
  destruct (generate_betting_recommendations_heap h r) as [fresh Hfresh].
  simpl. rewrite Hfresh.
  assert (forall r' d, h !! r' = Some d -> (h ++ fresh) !! r' = Some d) as Hkeep.
  { intros r' d H. rewrite lookup_app_l; [done|]. by eapply lookup_lt_Some. }
  split; [|split; [by exists fresh | exact Hkeep]].
  destruct (h !! r) as [d|] eqn:H; [by apply Hkeep|].
  unfold run, generate_betting_recommendations, copy, bind, load in Hfresh.
  rewrite H in Hfresh. simpl in Hfresh.
  apply (f_equal length) in Hfresh. rewrite length_app in Hfresh.
  destruct fresh; [by rewrite app_nil_r | simpl in Hfresh; lia].
Qed.

Lemma generate_betting_recommendations_result (h : heap) (r : ref) (d : DataFrame) :
  h !! r = Some d ->
  result_frame (run (generate_betting_recommendations r) h) =
  match recommendation_frame (if empty d then mock_recommendations else d) with
  | Ok out => Some out
  | Raise _ => None
  end.
Proof.
  intros H. rewrite (generate_betting_recommendations_run _ _ _ H). cbv zeta.
  generalize (if empty d then h ++ [d] else h). intros h0.
  generalize (if empty d then mock_recommendations else d). intros x.
  unfold recommendation_frame.
  repeat case_match; simplify_eq; try done.
  unfold result_frame. apply top_result.
Qed.

Lemma generate_betting_recommendations_dangling (h : heap) (r : ref) :
  h !! r = None -> result_frame (run (generate_betting_recommendations r) h) = None.
Proof.
  intros H. unfold run, generate_betting_recommendations, copy, bind, load.
  by rewrite H.
Qed.

Lemma recommendation_frame_columns (x out : DataFrame) :
  recommendation_frame x = Ok out -> columns out = recommendation_columns.
Proof.
  unfold recommendation_frame. repeat case_match; try done.
  intros [= <-]. unfold columns. simpl data. by eapply select_cols_labels.
Qed.

(** C7.  On an empty input the output is the two mock rows
    ("MOCK_1","TeamA",0.05,0.03,0.08,"Bet",0.08,"Spread") and
    ("MOCK_1","TeamB",-0.02,-0.01,-0.03,"Avoid",0.03,"No Bet"), and every
    frame the function returns, mock or not, has the eight columns game id,
    team code, offensive, defensive and net per-play value, decision,
    confidence and bet-type, in this order. *)
Theorem generate_betting_recommendations_mock (h : heap) (r : ref) :
  (forall d, h !! r = Some d -> empty d = true ->
     exists out,
       result_frame (run (generate_betting_recommendations r) h) = Some out /\
       nrows out = 2 /\
       row out 0 = [Some (VStr "MOCK_1"); Some (VStr "TeamA");
                    Some (VNum F64.lit_0_05); Some (VNum F64.lit_0_03);
                    Some (VNum F64.lit_0_08); Some (VStr "Bet");
                    Some (VNum F64.lit_0_08); Some (VStr "Spread")] /\
       row out 1 = [Some (VStr "MOCK_1"); Some (VStr "TeamB");
                    Some (VNum F64.lit_m0_02); Some (VNum F64.lit_m0_01);
                    Some (VNum F64.lit_m0_03); Some (VStr "Avoid");
                    Some (VNum F64.lit_0_03); Some (VStr "No Bet")] /\
       row out 2 = [None; None; None; None; None; None; None; None]) /\
  (forall out,
     result_frame (run (generate_betting_recommendations r) h) = Some out ->
     columns out = ["game_id"; "posteam"; "off_epa_per_play"; "def_epa_per_play";
                    "net_epa_per_play"; "bet_favorite"; "confidence"; "bet_type"]).
Proof.
  split.
  - intros d H He.
    rewrite (generate_betting_recommendations_result _ _ _ H), He.
    eexists. split; [reflexivity|]. repeat split.
  - intros out. destruct (h !! r) as [d|] eqn:H.
    + rewrite (generate_betting_recommendations_result _ _ _ H).
      destruct (recommendation_frame _) as [o|] eqn:E; [|done].
      intros [= <-]. by apply recommendation_frame_columns in E.
    + by rewrite generate_betting_recommendations_dangling.
Qed.

Lemma generate_betting_recommendations_mock_witness :
  let h := [mkDataFrame 0 []] in
  (forall d, h !! 0 = Some d -> empty d = true ->
     exists out,
       result_frame (run (generate_betting_recommendations 0) h) = Some out /\
       nrows out = 2 /\
       row out 0 = [Some (VStr "MOCK_1"); Some (VStr "TeamA");
                    Some (VNum F64.lit_0_05); Some (VNum F64.lit_0_03);
                    Some (VNum F64.lit_0_08); Some (VStr "Bet");
                    Some (VNum F64.lit_0_08); Some (VStr "Spread")] /\
       row out 1 = [Some (VStr "MOCK_1"); Some (VStr "TeamB");
                    Some (VNum F64.lit_m0_02); Some (VNum F64.lit_m0_01);
                    Some (VNum F64.lit_m0_03); Some (VStr "Avoid");
                    Some (VNum F64.lit_0_03); Some (VStr "No Bet")] /\
       row out 2 = [None; None; None; None; None; None; None; None]) /\
  (forall out,
     result_frame (run (generate_betting_recommendations 0) h) = Some out ->
     columns out = ["game_id"; "posteam"; "off_epa_per_play"; "def_epa_per_play";
                    "net_epa_per_play"; "bet_favorite"; "confidence"; "bet_type"]) /\
  h !! 0 = Some (mkDataFrame 0 []) /\ empty (mkDataFrame 0 []) = true /\
  exists out, result_frame (run (generate_betting_recommendations 0) h) = Some out.
Proof.
  intros h.
  destruct (generate_betting_recommendations_mock h 0) as [Hmock Hcols].
  split; [exact Hmock|]. split; [exact Hcols|].
  split; [reflexivity|]. split; [reflexivity|].
  destruct (Hmock (mkDataFrame 0 []) eq_refl eq_refl) as (out & Hout & _).
  by exists out.
Defined.

(** ** Thresholds, cell by cell *)

Lemma gt_zero_positive (x : float64) : F64.ltb F64.zero x = true <-> F64.positive x.
Proof. destruct x as [[]|[]| |[] m e]; simpl; split; done. Qed.

Lemma abs_not_negative (x : float64) :
  F64.is_nan x = false -> F64.leb F64.zero (F64.abs x) = true.
Proof. by destruct x as [[]|[]| |[] m e]. Qed.

Lemma series_apply_numbers (f : value -> outcome value) (g : float64 -> value)
    (xs : list float64) :
  (forall x, f (VNum x) = Ok (g x)) ->
  series_apply f (map VNum xs) = Ok (map g xs).
Proof.
  intros Hf. unfold series_apply.
  induction xs as [|x xs IH]; simpl; [done|]. by rewrite Hf, IH.
Qed.

(** C6 (amended).  For every row the function processes: the decision is
    "Bet" exactly when the net value is > 0 (strictly positive, or plus
    infinity) and "Avoid" otherwise, in particular at 0; the confidence is
    the absolute value of the net value, which is >= 0 whenever the net value
    is not NaN; the bet-type is "Spread" exactly when the confidence is
    > 0.05 and "No Bet" otherwise, in particular at 0.05.  A NaN net value
    gives a NaN confidence, "Avoid" and "No Bet". *)
Theorem generate_betting_recommendations_rows (h : heap) (r : ref) (d : DataFrame)
    (xs : list float64) :
  h !! r = Some d ->
  lookup_col "net_epa_per_play"
    (data (if empty d then mock_recommendations else d)) = Some (map VNum xs) ->
  Forall (fun c => is_Some (lookup_col c
                     (data (if empty d then mock_recommendations else d))))
         ["game_id"; "posteam"; "off_epa_per_play"; "def_epa_per_play"] ->
  exists out bet_favorite confidence bet_type,
    result_frame (run (generate_betting_recommendations r) h) = Some out /\
    lookup_col "net_epa_per_play" (data out) = Some (map VNum xs) /\
    lookup_col "bet_favorite" (data out) = Some bet_favorite /\
    lookup_col "confidence" (data out) = Some confidence /\
    lookup_col "bet_type" (data out) = Some bet_type /\
    forall i net, xs !! i = Some net ->
      exists b c t,
        bet_favorite !! i = Some (VStr b) /\
        confidence !! i = Some (VNum c) /\
        bet_type !! i = Some (VStr t) /\
        (b = "Bet" \/ b = "Avoid") /\
        (t = "Spread" \/ t = "No Bet") /\
        (b = "Bet" <-> F64.ltb F64.zero net = true) /\
        (b = "Bet" <-> F64.positive net) /\
        (net = F64.zero -> b = "Avoid") /\
        c = F64.abs net /\
        (F64.is_nan net = false -> F64.leb F64.zero c = true) /\
        (F64.is_nan net = true -> F64.is_nan c = true /\ b = "Avoid" /\ t = "No Bet") /\
        (t = "Spread" <-> F64.ltb F64.lit_0_05 c = true) /\
        (c = F64.lit_0_05 -> t = "No Bet").
Proof.
  intros H Hnet Hkeys.
  rewrite (generate_betting_recommendations_result _ _ _ H).
  revert Hnet Hkeys. generalize (if empty d then mock_recommendations else d).
  intros x Hnet Hkeys. unfold recommendation_frame. rewrite Hnet.
  set (decide_bet := fun n : float64 =>
         VStr (if F64.ltb F64.zero n then "Bet" else "Avoid")).
  set (abs_of := fun n : float64 => VNum (F64.abs n)).
  set (type_of := fun c : float64 =>
         VStr (if F64.ltb F64.lit_0_05 c then "Spread" else "No Bet")).
  rewrite (series_apply_numbers bet_favorite_of decide_bet) by done.
  rewrite (series_apply_numbers cell_abs abs_of) by done.
  assert (map abs_of xs = map VNum (map F64.abs xs)) as Habs.
  { by rewrite map_map. }
  rewrite Habs, (series_apply_numbers bet_type_of type_of) by done.
  set (x3 := set_column "bet_type" _ _).
  assert (forall c, c ∈ recommendation_columns ->
            lookup_col c (data x3) =
            if decide (c = "bet_type") then Some (map type_of (map F64.abs xs))
            else if decide (c = "confidence") then Some (map VNum (map F64.abs xs))
            else if decide (c = "bet_favorite") then Some (map decide_bet xs)
            else lookup_col c (data x)) as Hx3.
  { intros c _. unfold x3. rewrite !lookup_set_column.
    repeat case_decide; subst; done. }
  destruct (select_cols_total recommendation_columns x3) as [cols Hcols].
  { apply Forall_forall. intros c Hc. rewrite (Hx3 c Hc).
    repeat (case_decide; [done|]).
    unfold recommendation_columns in Hc.
    apply elem_of_cons in Hc as [->|Hc]; [by inversion Hkeys|].
    apply elem_of_cons in Hc as [->|Hc]; [by inversion Hkeys as [|? ? ? Hk]; inversion Hk|].
    apply elem_of_cons in Hc as [->|Hc].
    { rewrite Forall_forall in Hkeys. apply Hkeys. repeat constructor. }
    apply elem_of_cons in Hc as [->|Hc].
    { rewrite Forall_forall in Hkeys. apply Hkeys. repeat constructor. }
    apply elem_of_cons in Hc as [->|Hc]; [by rewrite Hnet|].
    repeat (apply elem_of_cons in Hc as [->|Hc]; [done|]).
    by apply elem_of_nil in Hc. }
  rewrite Hcols.
  assert (forall c, c ∈ recommendation_columns ->
            lookup_col c cols = lookup_col c (data x3)) as Hout.
  { intros c Hc. by destruct (select_cols_lookup _ _ _ c Hcols Hc). }
  exists (mkDataFrame (nrows x) cols), (map decide_bet xs),
         (map VNum (map F64.abs xs)), (map type_of (map F64.abs xs)).
  split; [done|]. simpl data.
  split. { rewrite Hout, Hx3, Hnet by (unfold recommendation_columns; repeat constructor). done. }
  split. { by rewrite Hout, Hx3 by (unfold recommendation_columns; repeat constructor). }
  split. { by rewrite Hout, Hx3 by (unfold recommendation_columns; repeat constructor). }
  split. { by rewrite Hout, Hx3 by (unfold recommendation_columns; repeat constructor). }
  intros i net Hi.
  exists (if F64.ltb F64.zero net then "Bet" else "Avoid"), (F64.abs net),
         (if F64.ltb F64.lit_0_05 (F64.abs net) then "Spread" else "No Bet").
  rewrite !list_lookup_fmap, Hi. simpl.
  split; [done|]. split; [done|]. split; [done|].
  split; [destruct (F64.ltb F64.zero net); auto|].
  split; [destruct (F64.ltb F64.lit_0_05 (F64.abs net)); auto|].
  assert ((if F64.ltb F64.zero net then "Bet" else "Avoid") = "Bet"
          <-> F64.ltb F64.zero net = true) as Hbet.
  { destruct (F64.ltb F64.zero net); split; done. }
  split; [exact Hbet|].
  split; [by rewrite Hbet, gt_zero_positive|].
  split; [by intros ->|].
  split; [done|].
  split; [apply abs_not_negative|].
  split; [by destruct net|].
  split; [destruct (F64.ltb F64.lit_0_05 (F64.abs net)); split; done|].
  by intros ->.
Qed.

Lemma generate_betting_recommendations_rows_witness :
  let d := mkDataFrame 3
             [ ("game_id", [VStr "G1"; VStr "G1"; VStr "G2"]);
               ("posteam", [VStr "A"; VStr "B"; VStr "A"]);
               ("off_epa_per_play", map VNum [F64.lit_0_2; F64.lit_0_1; F64.lit_0_05]);
               ("def_epa_per_play", map VNum [F64.nan; F64.lit_m0_01; F64.zero]);
               ("net_epa_per_play", map VNum [F64.nan; F64.lit_0_08; F64.lit_0_05]) ] in
  let xs := [F64.nan; F64.lit_0_08; F64.lit_0_05] in
  [d] !! 0 = Some d /\
  lookup_col "net_epa_per_play"
    (data (if empty d then mock_recommendations else d)) = Some (map VNum xs) /\
  Forall (fun c => is_Some (lookup_col c
                     (data (if empty d then mock_recommendations else d))))
         ["game_id"; "posteam"; "off_epa_per_play"; "def_epa_per_play"] /\
  exists out,
    result_frame (run (generate_betting_recommendations 0) [d]) = Some out /\
    lookup_col "bet_favorite" (data out) = Some [VStr "Avoid"; VStr "Bet"; VStr "Bet"] /\
    lookup_col "confidence" (data out) = Some (map VNum [F64.nan; F64.lit_0_08; F64.lit_0_05]) /\
    lookup_col "bet_type" (data out) = Some [VStr "No Bet"; VStr "Spread"; VStr "No Bet"].
Proof.
  intros d xs.
  assert (Forall (fun c => is_Some (lookup_col c
                     (data (if empty d then mock_recommendations else d))))
            ["game_id"; "posteam"; "off_epa_per_play"; "def_epa_per_play"]) as Hkeys.
  { repeat constructor; by eexists. }
  split; [reflexivity|]. split; [reflexivity|]. split; [exact Hkeys|].
  destruct (generate_betting_recommendations_rows [d] 0 d xs eq_refl eq_refl Hkeys)
    as (out & bf & conf & bt & Hout & _).
  exists out. split; [exact Hout|].
  vm_compute in Hout. injection Hout as <-. repeat split.
Defined.

(** C6, as stated, fails on a row whose net value is NaN, which is what
    [aggregate_net_epa] returns for a team without a defensive aggregate:
    the confidence is NaN, and NaN >= 0 does not hold. *)
Lemma generate_betting_recommendations_nan_confidence :
  let d := net_frame [mkNet (VStr "G1") (VStr "A") F64.lit_0_2 F64.nan F64.nan] in
  exists out,
    result_frame (run (generate_betting_recommendations 0) [d]) = Some out /\
    lookup_col "net_epa_per_play" (data out) = Some [VNum F64.nan] /\
    lookup_col "confidence" (data out) = Some [VNum F64.nan] /\
    ~ (forall c, lookup_col "confidence" (data out) = Some [VNum c] ->
                 F64.leb F64.zero c = true).
Proof.
  intros d. eexists. split; [reflexivity|]. split; [reflexivity|].
  split; [reflexivity|]. intros Hc. specialize (Hc F64.nan eq_refl). discriminate Hc.
Qed.

(** ** [aggregate_net_epa] *)

Lemma aggregate_net_epa_run (h : heap) (r : ref) (d : DataFrame) :
  h !! r = Some d ->
  run (aggregate_net_epa r) h =
  match groupby_agg d "game_id" "posteam" "epa" with
  | Raise e => (Raise e, h)
  | Ok off_epa =>
      match groupby_agg d "game_id" "defteam" "epa" with
      | Raise e => (Raise e, h)
      | Ok def_epa =>
          match off_epa, def_epa with
          | Keyed o, Keyed d' => (Ok (length h), h ++ [net_frame (net_table o d')])
          | _, _ => (Raise (KeyError "game_id"), h)
          end
      end
  end.
Proof.
  intros H. unfold run, aggregate_net_epa.
  step (load_run _ _ _ H).
  unfold bind at 1, lift.
  destruct (groupby_agg d "game_id" "posteam" "epa") as [off_epa|e]; [|done].
  cbv beta iota. unfold bind at 1.
  destruct (groupby_agg d "game_id" "defteam" "epa") as [def_epa|e]; [|done].
  cbv beta iota. unfold bind, merge, net_table.
  by destruct off_epa, def_epa.
Qed.

Lemma aggregate_net_epa_dangling (h : heap) (r : ref) :
  h !! r = None ->
  run (aggregate_net_epa r) h = (Raise (OtherError "no object at this address"), h).
Proof. intros H. unfold run, aggregate_net_epa, bind, load. by rewrite H. Qed.

(** *** Grouping *)

Lemma group_labels_NoDup (rows : list (key * float64)) : NoDup (group_labels rows).
Proof.
  unfold group_labels.
  rewrite merge_sort_Permutation. apply NoDup_remove_dups.
Qed.

Lemma group_labels_elem (rows : list (key * float64)) (k : key) :
  k ∈ group_labels rows <-> k ∈ map fst rows.
Proof.
  unfold group_labels. by rewrite merge_sort_Permutation, elem_of_remove_dups.
Qed.

(** A label is a group exactly when some row carries it: no group without
    a row. *)
Lemma group_values_nonempty (rows : list (key * float64)) (k : key) :
  k ∈ map fst rows <-> group_values k rows <> [].
Proof.
  unfold group_values. induction rows as [|[k' x] rows IH]; simpl.
  - split; [by intros ?%elem_of_nil | done].
  - rewrite filter_cons. simpl. case_decide as Hk.
    + subst. split; [done | intros _; constructor].
    + rewrite elem_of_cons, <- IH. split; [|by right].
      intros [->|]; done.
Qed.

Lemma numeric_rows_numbers (k1 k2 : Series) (xs : list float64) :
  exists rows, numeric_rows (keyed_rows k1 k2 (map VNum xs)) = Ok rows.
Proof.
  revert k2 xs. induction k1 as [|a k1 IH]; intros [|b k2] [|x xs]; simpl;
    try by eexists.
  destruct (IH k2 xs) as [rows Hrows].
  destruct (group_key a), (group_key b); simpl; rewrite ?Hrows; by eexists.
Qed.

Lemma groupby_agg_numbers (d : DataFrame) (k1 k2 v : string)
    (c1 c2 cv : Series) (rows : list (key * float64)) :
  lookup_col k1 (data d) = Some c1 ->
  lookup_col k2 (data d) = Some c2 ->
  lookup_col v (data d) = Some cv ->
  numeric_rows (keyed_rows c1 c2 cv) = Ok rows ->
  groupby_agg d k1 k2 v = Ok (Keyed (map (group_of c1 c2 rows) (group_labels rows))).
Proof. intros H1 H2 Hv Hrows. unfold groupby_agg. by rewrite H1, H2, Hv, Hrows. Qed.

(** *** Keys and labels *)

Lemma group_key_idem (a k : value) : group_key a = Some k -> group_key k = Some k.
Proof. destruct a as [s|[sg|sg| |sg m e]]; simpl; intros [= <-]; done. Qed.

Lemma group_key_not_nan (a ka : value) :
  group_key a = Some ka -> ka <> VNum F64.nan.
Proof. destruct a as [s|[sg|sg| |sg m e]]; simpl; intros [= <-]; done. Qed.

Lemma key_of_level_label (col : Series) (k : value) :
  group_key k = Some k -> key_of (level_label col k) = k.
Proof.
  intros Hk. unfold level_label.
  destruct (head (filter (fun a => group_key a = Some k) col)) as [a|] eqn:E; simpl.
  - apply head_Some_elem_of, list_elem_of_filter in E as [Ea _].
    unfold key_of. by rewrite Ea.
  - unfold key_of. by rewrite Hk.
Qed.

Lemma level_label_not_nan (col : Series) (k : value) :
  group_key k = Some k -> level_label col k <> VNum F64.nan.
Proof.
  intros Hk. unfold level_label.
  destruct (head (filter (fun a => group_key a = Some k) col)) as [a|] eqn:E; simpl.
  - apply head_Some_elem_of, list_elem_of_filter in E as [Ea _].
    intros ->. discriminate Ea.
  - by eapply group_key_not_nan.
Qed.


Lemma keyed_rows_canonical (k1 k2 v : Series) :
  Forall canonical (map fst (keyed_rows k1 k2 v)).
Proof.
  revert k2 v. induction k1 as [|a k1 IH]; intros [|b k2] [|x v]; simpl;
    try constructor.
  - destruct (group_key a) as [ka|] eqn:Ea; [|apply IH].
    destruct (group_key b) as [kb|] eqn:Eb; [|apply IH].
    simpl. constructor; [|apply IH].
    split; simpl; by eapply group_key_idem.
Qed.

Lemma numeric_rows_keys (kr : list (key * value)) (ro : list (key * float64)) :
  numeric_rows kr = Ok ro -> map fst ro = map fst kr.
Proof.
  revert ro. induction kr as [|[k [s|x]] kr IH]; simpl; intros ro Hro.
  - by injection Hro as <-.
  - done.
  - destruct (numeric_rows kr) as [rest|]; [|done].
    injection Hro as <-. simpl. by rewrite (IH rest).
Qed.

Lemma numeric_rows_canonical (k1 k2 v : Series) (ro : list (key * float64)) :
  numeric_rows (keyed_rows k1 k2 v) = Ok ro -> Forall canonical (map fst ro).
Proof.
  intros Hro. rewrite (numeric_rows_keys _ _ Hro). apply keyed_rows_canonical.
Qed.

Lemma group_labels_canonical (rows : list (key * float64)) :
  Forall canonical (map fst rows) -> Forall canonical (group_labels rows).
Proof.
  rewrite !Forall_forall. intros Hc k Hk. by apply Hc, group_labels_elem.
Qed.

Lemma group_label_of (c1 c2 : Series) (rows : list (key * float64)) (k : key) :
  canonical k -> group_label (group_of c1 c2 rows k) = k.
Proof.
  intros [H1 H2]. destruct k as [a b]. unfold group_label, group_of. simpl in *.
  by rewrite !key_of_level_label.
Qed.

(** *** The left join against a side with distinct keys *)

Lemma filter_key_NoDup {B : Type} (rk : B -> key) (r : list B) (k : key) :
  NoDup (map rk r) ->
  filter (fun b => rk b = k) r = [] \/
  exists b, filter (fun b => rk b = k) r = [b] /\ rk b = k /\ b ∈ r.
Proof.
  induction r as [|b r IH]; simpl; intros Hnd; [by left|].
  apply NoDup_cons in Hnd as [Hb Hnd].
  rewrite filter_cons. case_decide as Hk.
  - right. exists b. split; [|split; [done | constructor]].
    f_equal. destruct (IH Hnd) as [E | (b' & E & Hb' & Hin)]; [done|].
    exfalso. apply Hb. rewrite Hk, <- Hb'.
    exact (list_elem_of_fmap_2 rk r b' Hin).
  - destruct (IH Hnd) as [E | (b' & E & Hb' & Hin)]; [by left|].
    right. exists b'. split; [done|]. split; [done|]. by constructor.
Qed.

Lemma merge_left_distinct {A B : Type} (lk : A -> key) (rk : B -> key)
    (l : list A) (r : list B) :
  NoDup (map rk r) ->
  merge_left lk rk l r =
  map (fun a => (a, head (filter (fun b => rk b = lk a) r))) l.
Proof.
  intros Hnd. unfold merge_left.
  induction l as [|a l IH]; [done|].
  cbn [flat_map]. rewrite IH, map_cons.
  destruct (filter_key_NoDup rk r (lk a) Hnd) as [-> | (b & -> & _)]; done.
Qed.

Lemma head_filter_label {B : Type} (rk : B -> key) (g : key -> B)
    (ls : list key) (k : key) :
  Forall (fun k' => rk (g k') = k') ls ->
  head (filter (fun b => rk b = k) (map g ls)) =
  if decide (k ∈ ls) then Some (g k) else None.
Proof.
  induction 1 as [|k' ls Hg _ IH]; [done|].
  cbn [map]. rewrite filter_cons, Hg.
  destruct (decide (k' = k)) as [->|Hk].
  - cbn [head]. rewrite decide_True; [done | constructor].
  - rewrite IH. destruct (decide (k ∈ ls)) as [Hin|Hin].
    + rewrite decide_True; [done | by constructor].
    + rewrite decide_False; [done|].
      intros [?|?]%elem_of_cons; by subst.
Qed.

(** The returned rows: one per offensive group, in the order of the sorted
    keys, joined with the defensive group of the same key when there is
    one. *)
Lemma net_table_groups (G P G' D : Series) (ro rd : list (key * float64)) :
  Forall canonical (map fst ro) -> Forall canonical (map fst rd) ->
  net_table (map (group_of G P ro) (group_labels ro))
            (map (group_of G' D rd) (group_labels rd)) =
  map (joined_row G P ro rd) (group_labels ro).
Proof.
  intros Hco Hcd.
  apply group_labels_canonical in Hco, Hcd.
  assert (Forall (fun k => group_label (def_group (add_def_epa_per_play
                                                     (group_of G' D rd k))) = k)
                 (group_labels rd)) as Hrk.
  { eapply Forall_impl; [exact Hcd|]. intros k Hk. by apply group_label_of. }
  unfold net_table. rewrite merge_left_distinct.
  2: { rewrite !map_map. rewrite (map_ext_Forall _ id Hrk), map_id.
       apply group_labels_NoDup. }
  rewrite !map_map. apply map_ext_Forall.
  eapply Forall_impl; [exact Hco|]. intros k Hk. simpl.
  rewrite (group_label_of G P ro k Hk).
  rewrite <- (map_map (group_of G' D rd) add_def_epa_per_play).
  rewrite map_map.
  rewrite (head_filter_label (fun d => group_label (def_group d))
             (fun k => add_def_epa_per_play (group_of G' D rd k))
             (group_labels rd) k Hrk).
  unfold joined_row.
  pose proof (group_labels_elem rd k) as He.
  destruct (decide (k ∈ group_labels rd)), (decide (k ∈ map fst rd));
    try done; tauto.
Qed.

(** *** Binary64 facts used by the aggregation *)

Lemma add_nan_r (x : float64) : F64.add x F64.nan = F64.nan.
Proof. by destruct x as [[]|[]| |[] m e]. Qed.

Lemma binary_round_aux_opp (s : bool) (m e : Z) (l : location) :
  SFopp (binary_round_aux F64.prec F64.emax s m e l) =
  binary_round_aux F64.prec F64.emax (negb s) m e l.
Proof.
  unfold binary_round_aux.
  destruct (shr_fexp F64.prec F64.emax m e l) as [mrs e'].
  destruct (shr_fexp F64.prec F64.emax _ e' loc_Exact) as [mrs' e''].
  destruct (shr_m mrs'); [done| |done].
  by destruct (Z.leb e'' _).
Qed.

(** [-a / b] is [-(a / b)]: the division is symmetric in the sign. *)
Lemma div_opp_l (a b : float64) : F64.div (F64.opp a) b = F64.opp (F64.div a b).
Proof.
  unfold F64.div, F64.opp.
  destruct a as [sa|sa| |sa ma ea], b as [sb|sb| |sb mb eb]; simpl;
    try done; try (by destruct sa, sb).
  destruct (SFdiv_core_binary F64.prec F64.emax (Z.pos ma) ea (Z.pos mb) eb)
    as [[mz ez] lz].
  rewrite binary_round_aux_opp. by destruct sa, sb.
Qed.

Lemma sub_zero_r (x : float64) : F64.is_nan x = false -> F64.sub x F64.zero = x.
Proof. by destruct x as [[]|[]| |[] m e]. Qed.

Lemma sub_diag_finite (s : bool) (m : positive) (e : Z) :
  F64.sub (S754_finite s m e) (S754_finite s m e) = F64.zero.
Proof.
  unfold F64.sub, SFsub. cbv zeta.
  rewrite Z.min_id. unfold shl_align. by rewrite !Z.sub_diag.
Qed.

(** The first value of a sum leaves no compensation. *)
Lemma kahan_first (a : float64) :
  F64.is_nan a = false ->
  let y := F64.sub a F64.zero in
  let t := F64.add F64.zero y in
  let c := F64.sub (F64.sub t F64.zero) y in
  t = F64.add F64.zero a /\ (if F64.is_nan c then F64.zero else c) = F64.zero.
Proof.
  intros Ha. cbv zeta. rewrite (sub_zero_r a Ha).
  split; [done|].
  destruct a as [[]|[]| |s m e]; try done.
  change (F64.add F64.zero (S754_finite s m e)) with (S754_finite s m e).
  change (F64.sub (S754_finite s m e) F64.zero) with (S754_finite s m e).
  by rewrite sub_diag_finite.
Qed.

Lemma present_no_nan (xs : list float64) :
  Forall (fun x => F64.is_nan x = false) (present xs).
Proof.
  apply Forall_forall. intros x Hx. by apply list_elem_of_filter in Hx as [Hx _].
Qed.

(** The sum skips the missing values and is the compensated sum of the
    others. *)
Lemma agg_sum_present (xs : list float64) :
  agg_sum xs = compensated_sum F64.zero F64.zero (present xs).
Proof.
  unfold agg_sum. generalize F64.zero at 1 3. generalize F64.zero.
  induction xs as [|x xs IH]; intros c s; [done|].
  unfold present. rewrite filter_cons. cbn [fold_left kahan_step].
  destruct (F64.is_nan x) eqn:Ex.
  - rewrite decide_False by done. apply IH.
  - rewrite decide_True by done. cbn [compensated_sum]. apply IH.
Qed.

(** Up to two values, the compensated sum is the plain binary64 sum. *)
Lemma compensated_sum_short (xs : list float64) :
  Forall (fun x => F64.is_nan x = false) xs -> length xs <= 2 ->
  compensated_sum F64.zero F64.zero xs = fold_left F64.add xs F64.zero.
Proof.
  intros Hxs Hlen.
  destruct xs as [|a [|b [|c xs]]]; [done| | |simpl in Hlen; lia].
  - inversion Hxs as [|? ? Ha _]; subst. simpl. by rewrite (sub_zero_r a Ha).
  - inversion Hxs as [|? ? Ha Hb']; subst. inversion Hb' as [|? ? Hb _]; subst.
    destruct (kahan_first a Ha) as [Et Ec]. cbv zeta in Et, Ec.
    cbn [compensated_sum fold_left]. rewrite Ec, Et.
    by rewrite (sub_zero_r b Hb).
Qed.

Lemma agg_sum_short (xs : list float64) :
  length (present xs) <= 2 -> agg_sum xs = fold_left F64.add (present xs) F64.zero.
Proof.
  intros Hlen. rewrite agg_sum_present.
  apply compensated_sum_short; [apply present_no_nan | done].
Qed.

(** *** The returned frame *)

Lemma groupby_agg_inv (d : DataFrame) (k1 k2 v : string) (gs : list group) :
  groupby_agg d k1 k2 v = Ok (Keyed gs) ->
  exists c1 c2 cv rows,
    lookup_col k1 (data d) = Some c1 /\
    lookup_col k2 (data d) = Some c2 /\
    lookup_col v (data d) = Some cv /\
    numeric_rows (keyed_rows c1 c2 cv) = Ok rows /\
    gs = map (group_of c1 c2 rows) (group_labels rows).
Proof.
  unfold groupby_agg. intros Hg.
  destruct (lookup_col k1 (data d)) as [c1|], (lookup_col k2 (data d)) as [c2|].
  - destruct (lookup_col v (data d)) as [cv|]; [|done].
    destruct (numeric_rows (keyed_rows c1 c2 cv)) as [rows|] eqn:Hrows; [|done].
    injection Hg as <-. by exists c1, c2, cv, rows.
  - destruct (nrows d =? 2); [|done].
    destruct (lookup_col v (data d)) as [cv|]; [|done].
    by destruct (numeric_rows (listed_rows k1 k2 cv)).
  - destruct (nrows d =? 2); [|done].
    destruct (lookup_col v (data d)) as [cv|]; [|done].
    by destruct (numeric_rows (listed_rows k1 k2 cv)).
  - destruct (nrows d =? 2); [|done].
    destruct (lookup_col v (data d)) as [cv|]; [|done].
    by destruct (numeric_rows (listed_rows k1 k2 cv)).
Qed.

Lemma aggregate_net_epa_rows (h : heap) (r : ref) (d : DataFrame)
    (G P D E : Series) (ro rd : list (key * float64)) :
  h !! r = Some d ->
  lookup_col "game_id" (data d) = Some G ->
  lookup_col "posteam" (data d) = Some P ->
  lookup_col "defteam" (data d) = Some D ->
  lookup_col "epa" (data d) = Some E ->
  numeric_rows (keyed_rows G P E) = Ok ro ->
  numeric_rows (keyed_rows G D E) = Ok rd ->
  run (aggregate_net_epa r) h =
  (Ok (length h), h ++ [net_frame (map (joined_row G P ro rd) (group_labels ro))]).
Proof.
  intros H HG HP HD HE Hro Hrd.
  rewrite (aggregate_net_epa_run _ _ _ H).
  rewrite (groupby_agg_numbers _ _ _ _ _ _ _ _ HG HP HE Hro).
  rewrite (groupby_agg_numbers _ _ _ _ _ _ _ _ HG HD HE Hrd).
  rewrite net_table_groups; [done | |]; by eapply numeric_rows_canonical.
Qed.

(** The call raises and leaves the heap as it was, or returns a new frame
    made of the groups of its four columns. *)
Lemma aggregate_net_epa_cases (h : heap) (r : ref) :
  (exists e, run (aggregate_net_epa r) h = (Raise e, h)) \/
  (exists d G P D E ro rd,
     h !! r = Some d /\
     lookup_col "game_id" (data d) = Some G /\
     lookup_col "posteam" (data d) = Some P /\
     lookup_col "defteam" (data d) = Some D /\
     lookup_col "epa" (data d) = Some E /\
     numeric_rows (keyed_rows G P E) = Ok ro /\
     numeric_rows (keyed_rows G D E) = Ok rd /\
     run (aggregate_net_epa r) h =
     (Ok (length h), h ++ [net_frame (map (joined_row G P ro rd) (group_labels ro))])).
Proof.
  destruct (h !! r) as [d|] eqn:H.
  2: { left. eexists. by apply aggregate_net_epa_dangling. }
  pose proof (aggregate_net_epa_run _ _ _ H) as Hrun.
  destruct (groupby_agg d "game_id" "posteam" "epa") as [[off|]|e] eqn:Hoff.
  - destruct (groupby_agg d "game_id" "defteam" "epa") as [[def|]|e] eqn:Hdef.
    + right.
      apply groupby_agg_inv in Hoff as (G & P & E & ro & HG & HP & HE & Hro & _).
      apply groupby_agg_inv in Hdef as (G' & D & E' & rd & HG' & HD & HE' & Hrd & _).
      assert (G' = G) as -> by congruence. assert (E' = E) as -> by congruence.
      exists d, G, P, D, E, ro, rd. repeat (split; [done|]).
      by eapply aggregate_net_epa_rows.
    + left. by eexists.
    + left. by eexists.
  - left. destruct (groupby_agg d "game_id" "defteam" "epa") as [[def|]|e];
      by eexists.
  - left. by eexists.
Qed.

Lemma aggregate_net_epa_result_inv (h : heap) (r : ref) (out : DataFrame) :
  result_frame (run (aggregate_net_epa r) h) = Some out ->
  exists G P ro rd,
    Forall canonical (map fst ro) /\
    out = net_frame (map (joined_row G P ro rd) (group_labels ro)).
Proof.
  destruct (aggregate_net_epa_cases h r)
    as [[e ->]|(d & G & P & D & E & ro & rd & _ & _ & _ & _ & _ & Hro & _ & ->)];
    [done|].
  unfold result_frame. rewrite top_lookup. intros [= <-].
  exists G, P, ro, rd. split; [by eapply numeric_rows_canonical | done].
Qed.

Lemma net_labels_joined (G P : Series) (ro rd : list (key * float64)) (ls : list key) :
  Forall canonical ls ->
  map net_label (map (joined_row G P ro rd) ls) = ls.
Proof.
  intros Hc. rewrite map_map. rewrite <- (map_id ls) at 2.
  apply map_ext_Forall. eapply Forall_impl; [exact Hc|].
  intros [a b] [Ha Hb]. unfold net_label, joined_row. simpl in *.
  by rewrite !key_of_level_label.
Qed.

Lemma zip_two_columns {A B C : Type} (f : A -> B) (g : A -> C) (l : list A) :
  zip (map f l) (map g l) = map (fun a => (f a, g a)) l.
Proof. induction l as [|a l IH]; simpl; [done|]. by rewrite IH. Qed.

(** C10.  Every frame [aggregate_net_epa] returns has at most one row per
    (game identifier, team code) pair: the pairs of its two key columns, row
    by row, are pairwise distinct.  It returns whenever the four columns it
    reads are there and the efficiency column holds numbers. *)
Theorem aggregate_net_epa_distinct_keys (h : heap) (r : ref) :
  (forall out,
     result_frame (run (aggregate_net_epa r) h) = Some out ->
     exists g p,
       lookup_col "game_id" (data out) = Some g /\
       lookup_col "posteam" (data out) = Some p /\
       length g = nrows out /\ length p = nrows out /\
       NoDup (zip g p)) /\
  (forall d G P D E,
     h !! r = Some d ->
     lookup_col "game_id" (data d) = Some G ->
     lookup_col "posteam" (data d) = Some P ->
     lookup_col "defteam" (data d) = Some D ->
     lookup_col "epa" (data d) = Some (map VNum E) ->
     exists out, run (aggregate_net_epa r) h = (Ok (length h), h ++ [out])).
Proof.
  split.
  - intros out Hout.
    apply aggregate_net_epa_result_inv in Hout as (G & P & ro & rd & Hc & ->).
    eexists _, _. split; [reflexivity|]. split; [reflexivity|].
    simpl. rewrite !length_map. split; [done|]. split; [done|].
    rewrite zip_two_columns.
    apply (NoDup_fmap_1 (fun p => (key_of (fst p), key_of (snd p)))).
    change (NoDup (map (fun p => (key_of (fst p), key_of (snd p)))
                     (map (fun a => (net_game_id a, net_posteam a))
                        (map (joined_row G P ro rd) (group_labels ro))))).
    rewrite (map_map (fun a => (net_game_id a, net_posteam a))).
    change (NoDup (map net_label (map (joined_row G P ro rd) (group_labels ro)))).
    rewrite net_labels_joined by (by apply group_labels_canonical).
    apply group_labels_NoDup.
  - intros d G P D E H HG HP HD HE.
    destruct (numeric_rows_numbers G P E) as [ro Hro].
    destruct (numeric_rows_numbers G D E) as [rd Hrd].
    eexists. by eapply aggregate_net_epa_rows.
Qed.

Lemma aggregate_net_epa_distinct_keys_witness :
  let h := [scenario_two_sided] in
  (exists out,
     result_frame (run (aggregate_net_epa 0) h) = Some out /\
     lookup_col "game_id" (data out) = Some [VStr "G1"; VStr "G1"] /\
     lookup_col "posteam" (data out) = Some [VStr "A"; VStr "B"] /\
     NoDup (zip [VStr "G1"; VStr "G1"] [VStr "A"; VStr "B"])) /\
  exists out, run (aggregate_net_epa 0) h = (Ok (length h), h ++ [out]).
Proof.
  intros h.
  destruct (aggregate_net_epa_distinct_keys h 0) as [Hkeys Hruns].
  split.
  - destruct (Hkeys (net_frame
                [mkNet (VStr "G1") (VStr "A") F64.lit_0_2
                   (F64.opp F64.lit_0_2) F64.zero;
                 mkNet (VStr "G1") (VStr "B") F64.lit_0_2
                   (F64.opp F64.lit_0_2) F64.zero]) eq_refl)
      as (g & p & Hg & Hp & _ & _ & Hnd).
    injection Hg as <-. injection Hp as <-.
    eexists. split; [reflexivity|]. by repeat split.
  - apply (Hruns scenario_two_sided
             [VStr "G1"; VStr "G1"; VStr "G1"] [VStr "A"; VStr "B"; VStr "A"]
             [VStr "B"; VStr "A"; VStr "B"]
             [F64.lit_0_1; F64.lit_0_2; F64.lit_0_3]); reflexivity.
Defined.

Lemma joined_row_elem (G P : Series) (ro rd : list (key * float64)) (row : net_row) :
  Forall canonical (map fst ro) ->
  row ∈ map (joined_row G P ro rd) (group_labels ro) ->
  row = joined_row G P ro rd (net_label row) /\ net_label row ∈ map fst ro.
Proof.
  intros Hc Hin. apply list_elem_of_fmap_1 in Hin as (k & -> & Hk).
  apply group_labels_elem in Hk.
  assert (net_label (joined_row G P ro rd k) = k) as ->; [|done].
  rewrite Forall_forall in Hc. destruct (Hc k Hk) as [Ha Hb]. destruct k as [a b].
  unfold net_label, joined_row. simpl in *. by rewrite !key_of_level_label.
Qed.

(** C5 (amended).  For every frame with the four columns read and numbers in
    the efficiency column: the returned frame has one row per (game,
    offensive team) group, and only for groups that have a row.  On each row
    the offensive per-play value is the sum of the group's efficiency values
    that are not missing, divided by their number; the defensive per-play
    value is the negation of the same ratio over the (game, defensive team)
    group of the same key, and NaN when no row carries that key on the
    defensive side; the net value is the binary64 sum of the two, bit for
    bit.  The sum of a group is the compensated sum of its values in row
    order, which is the plain binary64 sum for up to two values and can
    differ from it in the last place beyond: three plays of 0.1, 0.2 and 0.3
    sum to 0.6 and give 0.6 / 3. *)
Theorem aggregate_net_epa_means :
  (exists out,
     result_frame (run (aggregate_net_epa 0) [scenario_three_plays]) = Some out /\
     row out 0 = [Some (VStr "G1"); Some (VStr "A");
                  Some (VNum (F64.div F64.lit_0_6 (F64.of_nat 3)));
                  Some (VNum F64.nan); Some (VNum F64.nan)] /\
     agg_sum [F64.lit_0_1; F64.lit_0_2; F64.lit_0_3] = F64.lit_0_6 /\
     fold_left F64.add [F64.lit_0_1; F64.lit_0_2; F64.lit_0_3] F64.zero
       <> F64.lit_0_6) /\
  (forall (h : heap) (r : ref) (d : DataFrame) (G P D : Series) (E : list float64)
          (ro rd : list (key * float64)),
     h !! r = Some d ->
     lookup_col "game_id" (data d) = Some G ->
     lookup_col "posteam" (data d) = Some P ->
     lookup_col "defteam" (data d) = Some D ->
     lookup_col "epa" (data d) = Some (map VNum E) ->
     numeric_rows (keyed_rows G P (map VNum E)) = Ok ro ->
     numeric_rows (keyed_rows G D (map VNum E)) = Ok rd ->
     exists rows,
       run (aggregate_net_epa r) h = (Ok (length h), h ++ [net_frame rows]) /\
       (forall k, k ∈ map net_label rows <-> group_values k ro <> []) /\
       forall row, row ∈ rows ->
         let xs := group_values (net_label row) ro in
         let ys := group_values (net_label row) rd in
         xs <> [] /\
         net_off_epa_per_play row =
           F64.div (agg_sum xs) (F64.of_nat (agg_count xs)) /\
         net_def_epa_per_play row =
           match ys with
           | [] => F64.nan
           | _ => F64.opp (F64.div (agg_sum ys) (F64.of_nat (agg_count ys)))
           end /\
         net_epa_per_play row =
           F64.add (net_off_epa_per_play row) (net_def_epa_per_play row) /\
         forall zs, zs = xs \/ zs = ys ->
           agg_sum zs = compensated_sum F64.zero F64.zero (present zs) /\
           agg_count zs = length (present zs) /\
           (length (present zs) <= 2 ->
            agg_sum zs = fold_left F64.add (present zs) F64.zero)).
Proof.
  split.
  { eexists. split; [reflexivity|]. split; [by vm_compute|].
    split; [by vm_compute|]. by vm_compute. }
  intros h r d G P D E ro rd H HG HP HD HE Hro Hrd.
  pose proof (numeric_rows_canonical _ _ _ _ Hro) as Hc.
  exists (map (joined_row G P ro rd) (group_labels ro)).
  split; [by eapply aggregate_net_epa_rows|].
  split.
  { intros k. rewrite net_labels_joined by (by apply group_labels_canonical).
    by rewrite group_labels_elem, group_values_nonempty. }
  intros row Hrow xs ys.
  apply (joined_row_elem G P ro rd row Hc) in Hrow as [Hrow Hk].
  set (k := net_label row) in *.
  split; [by apply group_values_nonempty|].
  split; [by rewrite Hrow|].
  split.
  { rewrite Hrow. unfold joined_row. simpl.
    destruct (decide (k ∈ map fst rd)) as [Hin|Hin]; simpl.
    - apply group_values_nonempty in Hin. fold ys in Hin |- *.
      destruct ys; [done|]. apply div_opp_l.
    - destruct ys eqn:Eys; [done|]. exfalso. apply Hin.
      apply group_values_nonempty. fold ys. by rewrite Eys. }
  split; [by rewrite Hrow|].
  intros zs _. split; [apply agg_sum_present|]. split; [done|]. apply agg_sum_short.
Qed.

Lemma aggregate_net_epa_means_witness :
  let d := scenario_two_sided in
  let ro := [((VStr "G1", VStr "A"), F64.lit_0_1); ((VStr "G1", VStr "B"), F64.lit_0_2);
             ((VStr "G1", VStr "A"), F64.lit_0_3)] in
  let rd := [((VStr "G1", VStr "B"), F64.lit_0_1); ((VStr "G1", VStr "A"), F64.lit_0_2);
             ((VStr "G1", VStr "B"), F64.lit_0_3)] in
  [d] !! 0 = Some d /\
  numeric_rows (keyed_rows [VStr "G1"; VStr "G1"; VStr "G1"]
                  [VStr "A"; VStr "B"; VStr "A"]
                  (map VNum [F64.lit_0_1; F64.lit_0_2; F64.lit_0_3])) = Ok ro /\
  numeric_rows (keyed_rows [VStr "G1"; VStr "G1"; VStr "G1"]
                  [VStr "B"; VStr "A"; VStr "B"]
                  (map VNum [F64.lit_0_1; F64.lit_0_2; F64.lit_0_3])) = Ok rd /\
  exists rows,
    run (aggregate_net_epa 0) [d] = (Ok 1, [d] ++ [net_frame rows]) /\
    forall row, row ∈ rows ->
      net_off_epa_per_play row =
        F64.div (agg_sum (group_values (net_label row) ro))
                (F64.of_nat (agg_count (group_values (net_label row) ro))) /\
      net_epa_per_play row =
        F64.add (net_off_epa_per_play row) (net_def_epa_per_play row).
Proof.
  intros d ro rd. split; [reflexivity|]. split; [reflexivity|]. split; [reflexivity|].
  destruct aggregate_net_epa_means as [_ Hmeans].
  destruct (Hmeans [d] 0 d
              [VStr "G1"; VStr "G1"; VStr "G1"] [VStr "A"; VStr "B"; VStr "A"]
              [VStr "B"; VStr "A"; VStr "B"]
              [F64.lit_0_1; F64.lit_0_2; F64.lit_0_3] ro rd
              eq_refl eq_refl eq_refl eq_refl eq_refl eq_refl eq_refl)
    as (rows & Hrun & _ & Hrows).
  exists rows. split; [exact Hrun|].
  intros row Hrow. destruct (Hrows row Hrow) as (_ & Hoff & _ & Hnet & _).
  by split.
Defined.

(** C5, as stated, fails on a group with a missing efficiency value: the
    group (G1, A) has two rows, 0.1 and NaN; the returned offensive per-play
    value is 0.1 = 0.1 / 1, not a sum over the two rows divided by 2.  The
    returned net value is NaN (no defensive aggregate for A), which is not
    within 1e-9 of anything. *)
Lemma aggregate_net_epa_missing_value :
  exists out,
    result_frame (run (aggregate_net_epa 0) [scenario_missing_epa]) = Some out /\
    row out 0 = [Some (VStr "G1"); Some (VStr "A"); Some (VNum F64.lit_0_1);
                 Some (VNum F64.nan); Some (VNum F64.nan)] /\
    F64.lit_0_1 <> F64.div (fold_left F64.add [F64.lit_0_1; F64.nan] F64.zero)
                           (F64.of_nat 2) /\
    F64.lit_0_1 <> F64.div (agg_sum [F64.lit_0_1; F64.nan]) (F64.of_nat 2) /\
    F64.leb (F64.abs (F64.sub F64.nan (F64.add F64.lit_0_1 F64.nan))) F64.lit_1e_9
      = false.
Proof.
  eexists. split; [reflexivity|]. split; [by vm_compute|].
  split; [by vm_compute|]. split; [by vm_compute|]. reflexivity.
Qed.

(** C1 (amended).  The left join keeps an offensive row of team T in game G
    that has no defensive aggregate under the same (G, T) label, and fills
    nothing in: the defensive per-play value of the row is NaN, and so is
    the net value, which the recommendation step turns into "Avoid", a NaN
    confidence and "No Bet".  In the scenario of game "G1" (offence "A" with
    efficiencies 0.1 and 0.3, never a defence) the one output row is
    ("G1", "A", 0.2, NaN, NaN, "Avoid", NaN, "No Bet"). *)
Theorem aggregate_net_epa_unmatched_offense :
  (exists out,
     result_frame (run (pipeline_from_epa 0) [scenario_G1]) = Some out /\
     nrows out = 1 /\
     row out 0 = [Some (VStr "G1"); Some (VStr "A"); Some (VNum F64.lit_0_2);
                  Some (VNum F64.nan); Some (VNum F64.nan); Some (VStr "Avoid");
                  Some (VNum F64.nan); Some (VStr "No Bet")]) /\
  (forall (h : heap) (r : ref) (d : DataFrame) (G P D E : Series)
          (ro rd : list (key * float64)),
     h !! r = Some d ->
     lookup_col "game_id" (data d) = Some G ->
     lookup_col "posteam" (data d) = Some P ->
     lookup_col "defteam" (data d) = Some D ->
     lookup_col "epa" (data d) = Some E ->
     numeric_rows (keyed_rows G P E) = Ok ro ->
     numeric_rows (keyed_rows G D E) = Ok rd ->
     exists rows,
       run (aggregate_net_epa r) h = (Ok (length h), h ++ [net_frame rows]) /\
       forall k, group_values k ro <> [] -> group_values k rd = [] ->
         exists row,
           row ∈ rows /\ net_label row = k /\
           net_def_epa_per_play row = F64.nan /\
           net_epa_per_play row = F64.nan /\
           bet_favorite_of (VNum (net_epa_per_play row)) = Ok (VStr "Avoid") /\
           cell_abs (VNum (net_epa_per_play row)) = Ok (VNum F64.nan) /\
           bet_type_of (VNum F64.nan) = Ok (VStr "No Bet")).
Proof.
  split.
  { eexists. split; [by vm_compute|]. split; [done|]. by vm_compute. }
  intros h r d G P D E ro rd H HG HP HD HE Hro Hrd.
  pose proof (numeric_rows_canonical _ _ _ _ Hro) as Hc.
  exists (map (joined_row G P ro rd) (group_labels ro)).
  split; [by eapply aggregate_net_epa_rows|].
  intros k Hoff Hdef. exists (joined_row G P ro rd k).
  assert (k ∉ map fst rd) as Hnot.
  { intros Hin. by apply group_values_nonempty in Hin. }
  apply group_values_nonempty in Hoff.
  split.
  { by apply list_elem_of_fmap_2, group_labels_elem. }
  split.
  { rewrite Forall_forall in Hc. destruct (Hc k Hoff) as [Ha Hb]. destruct k as [a b].
    unfold net_label, joined_row. simpl in *. by rewrite !key_of_level_label. }
  unfold joined_row. rewrite decide_False by done. simpl.
  rewrite add_nan_r. by repeat split.
Qed.

Lemma aggregate_net_epa_unmatched_offense_witness :
  let d := scenario_G1 in
  let ro := [((VStr "G1", VStr "A"), F64.lit_0_1); ((VStr "G1", VStr "A"), F64.lit_0_3)] in
  let rd := [((VStr "G1", VStr "B"), F64.lit_0_1); ((VStr "G1", VStr "B"), F64.lit_0_3)] in
  let k := (VStr "G1", VStr "A") in
  [d] !! 0 = Some d /\
  numeric_rows (keyed_rows [VStr "G1"; VStr "G1"] [VStr "A"; VStr "A"]
                  [VNum F64.lit_0_1; VNum F64.lit_0_3]) = Ok ro /\
  numeric_rows (keyed_rows [VStr "G1"; VStr "G1"] [VStr "B"; VStr "B"]
                  [VNum F64.lit_0_1; VNum F64.lit_0_3]) = Ok rd /\
  group_values k ro <> [] /\ group_values k rd = [] /\
  exists rows row,
    run (aggregate_net_epa 0) [d] = (Ok 1, [d] ++ [net_frame rows]) /\
    row ∈ rows /\ net_label row = k /\
    net_def_epa_per_play row = F64.nan /\
    net_epa_per_play row = F64.nan.
Proof.
  intros d ro rd k.
  split; [reflexivity|]. split; [reflexivity|]. split; [reflexivity|].
  split; [by vm_compute|]. split; [reflexivity|].
  destruct aggregate_net_epa_unmatched_offense as [_ Hjoin].
  destruct (Hjoin [d] 0 d [VStr "G1"; VStr "G1"] [VStr "A"; VStr "A"]
              [VStr "B"; VStr "B"] [VNum F64.lit_0_1; VNum F64.lit_0_3] ro rd
              eq_refl eq_refl eq_refl eq_refl eq_refl eq_refl eq_refl)
    as (rows & Hrun & Hrows).
  destruct (Hrows k) as (row & Hin & Hk & Hdef & Hnet & _);
    [by vm_compute | reflexivity |].
  by exists rows, row.
Defined.

(** C1, as stated, fails on its own scenario: the output row of team "A"
    does not carry a defensive value 0.0, a net value 0.2, "Bet" and
    "Spread"; no row of the output does. *)
Lemma scenario_G1_not_as_claimed :
  ~ (exists out i confidence,
       result_frame (run (pipeline_from_epa 0) [scenario_G1]) = Some out /\
       row out i = [Some (VStr "G1"); Some (VStr "A"); Some (VNum F64.lit_0_2);
                    Some (VNum F64.lit_0_0); Some (VNum F64.lit_0_2);
                    Some (VStr "Bet"); confidence; Some (VStr "Spread")]).
Proof.
  intros (out & i & confidence & Hout & Hrow).
  vm_compute in Hout. injection Hout as <-.
  destruct i as [|i]; vm_compute in Hrow; discriminate Hrow.
Qed.

(** * Further properties of the pipeline *)

(** ** [calculate_epa]: every path *)

Lemma calculate_epa_dangling (h : heap) (r : ref) :
  h !! r = None ->
  run (calculate_epa r) h = (Raise (OtherError "no object at this address"), h).
Proof.
  intros H. unfold run, calculate_epa, df_empty, bind, load. by rewrite H.
Qed.

Lemma calculate_epa_raise_run (h : heap) (r : ref) (d : DataFrame)
    (ep ep_before : Series) (e : exn) :
  h !! r = Some d -> empty d = false ->
  lookup_col "ep" (data d) = Some ep ->
  lookup_col "ep_before" (data d) = Some ep_before ->
  series_sub ep ep_before = Raise e ->
  run (calculate_epa r) h = (Raise e, h).
Proof.
  intros H He Hep Hbefore Hsub. unfold run, calculate_epa.
  step (df_empty_run _ _ _ H). rewrite He.
  do 2 step (in_columns_run _ _ _ _ H).
  rewrite !has_column_lookup, Hep, Hbefore. cbv beta iota delta [negb orb].
  step (getitem_run _ _ _ _ _ H Hep).
  step (getitem_run _ _ _ _ _ H Hbefore).
  unfold bind at 1, lift. by rewrite Hsub.
Qed.

(** The call on a frame [d], whatever the branch: it returns its argument
    after an update of [d] in place, or raises and leaves [d] as it was. *)
Lemma calculate_epa_cases (h : heap) (r : ref) (d : DataFrame) :
  h !! r = Some d ->
  (exists d', run (calculate_epa r) h = (Ok r, <[r:=d']> h) /\
              nrows d' = nrows d /\ (wf d -> wf d') /\
              (d' = mock_columns d \/ d' = placeholder_columns d \/
               exists epa, d' = set_column "epa" epa d) /\
              (empty d = true \/ has_column "ep" d = false \/
               has_column "ep_before" d = false ->
               (d' = mock_columns d \/ d' = placeholder_columns d))) \/
  (exists e, run (calculate_epa r) h = (Raise e, h) /\
             empty d = false /\ has_column "ep" d = true /\
             has_column "ep_before" d = true).
Proof.
  intros H. destruct (empty d) eqn:He.
  { left. exists (mock_columns d). split; [by apply calculate_epa_empty_run|].
    split; [done|]. split; [apply wf_mock_columns | auto]. }
  destruct (has_column "ep" d) eqn:Hep.
  2: { left. exists (placeholder_columns d).
       split; [apply calculate_epa_placeholder_run; auto|].
       split; [unfold placeholder_columns; by rewrite !nrows_backfill|].
       split; [apply wf_placeholder_columns | auto]. }
  destruct (has_column "ep_before" d) eqn:Hbefore.
  2: { left. exists (placeholder_columns d).
       split; [apply calculate_epa_placeholder_run; auto|].
       split; [unfold placeholder_columns; by rewrite !nrows_backfill|].
       split; [apply wf_placeholder_columns | auto]. }
  pose proof Hep as Hep'. pose proof Hbefore as Hbefore'.
  rewrite has_column_lookup in Hep', Hbefore'.
  destruct (lookup_col "ep" (data d)) as [a|] eqn:Ea; [|done].
  destruct (lookup_col "ep_before" (data d)) as [b|] eqn:Eb; [|done].
  destruct (series_sub a b) as [epa|e] eqn:Hsub.
  - left. exists (set_column "epa" epa d).
    split; [by eapply calculate_epa_compute_run|]. split; [done|].
    split; [|split; [eauto | intros [?|[?|?]]; congruence]].
    intros Hwf. apply wf_set_column; [done|].
    pose proof (wf_lookup _ _ _ Hwf Ea) as La.
    pose proof (wf_lookup _ _ _ Hwf Eb) as Lb.
    clear -Hsub La Lb. unfold series_sub in Hsub.
    assert (length (zip a b) = nrows d) as Lz by (rewrite length_zip; lia).
    clear La Lb. revert epa Hsub Lz. generalize (nrows d).
    induction (zip a b) as [|p l IH]; simpl; intros n epa Hsub Ln.
    + by injection Hsub as <-.
    + destruct (cell_sub p); [|done].
      destruct (map_cells cell_sub l) as [rest|] eqn:Hrest; [|done].
      injection Hsub as <-. simpl. destruct n; [done|].
      f_equal. apply (IH n rest); [done | lia].
  - right. exists e. split; [by eapply calculate_epa_raise_run | done].
Qed.

(** X1.  [calculate_epa] works in place: when it returns, it returns the
    reference it was given; whether it returns or raises it allocates
    nothing and changes no other object of the heap. *)
Theorem calculate_epa_in_place (h : heap) (r : ref) :
  let out := run (calculate_epa r) h in
  length (snd out) = length h /\
  (forall r', r' <> r -> snd out !! r' = h !! r') /\
  (forall r', fst out = Ok r' -> r' = r /\ is_Some (h !! r)).
Proof.
  destruct (h !! r) as [d|] eqn:H.
  - destruct (calculate_epa_cases h r d H) as [(d' & -> & _)|(e & -> & _)]; simpl.
    + split; [by rewrite length_insert|].
      split; [intros r' Hr'; by rewrite list_lookup_insert_ne|].
      intros r' [= <-]. split; [done | by eexists].
    + by repeat split.
  - rewrite (calculate_epa_dangling h r H). simpl. by repeat split.
Qed.

Lemma cell_sub_raise (p : value * value) (e : exn) :
  cell_sub p = Raise e -> e = TypeError.
Proof.
  destruct p as [[s|x] [t|y]]; simpl; try done;
    try (destruct (F64.is_nan _)); simpl; by intros [= <-].
Qed.

Lemma series_sub_raise (l : list (value * value)) (e : exn) :
  map_cells cell_sub l = Raise e -> e = TypeError.
Proof.
  induction l as [|p l IH]; simpl; [done|].
  destruct (cell_sub p) as [w|e'] eqn:Ep.
  - destruct (map_cells cell_sub l); [done|]. intros [= <-]. by apply IH.
  - intros [= <-]. by eapply cell_sub_raise.
Qed.

Lemma map_cells_elem_raise {A : Type} (f : A -> outcome value) (l : list A)
    (a : A) (e : exn) :
  a ∈ l -> f a = Raise e -> exists e', map_cells f l = Raise e'.
Proof.
  intros Hin Ha. induction l as [|b l IH]; [by apply elem_of_nil in Hin|].
  simpl. destruct (f b) as [w|e'] eqn:Eb; [|by eexists].
  apply elem_of_cons in Hin as [->|Hin]; [congruence|].
  destruct (IH Hin) as [e' ->]. by eexists.
Qed.

(** X2.  On a non-empty frame with both point-value columns, a string cell in
    one of them, on a row where the other one is not missing, makes
    [calculate_epa] raise TypeError, and the frame is left as it was: no
    efficiency column is assigned. *)
Theorem calculate_epa_type_error (h : heap) (r : ref) (d : DataFrame)
    (ep ep_before : Series) (i : nat) (x y : value) :
  h !! r = Some d -> empty d = false ->
  lookup_col "ep" (data d) = Some ep ->
  lookup_col "ep_before" (data d) = Some ep_before ->
  ep !! i = Some x -> ep_before !! i = Some y ->
  is_string x \/ is_string y ->
  is_missing x = false -> is_missing y = false ->
  run (calculate_epa r) h = (Raise TypeError, h).
Proof.
  intros H He Hep Hbefore Hx Hy Hstr Mx My.
  assert (cell_sub (x, y) = Raise TypeError) as Hcell.
  { destruct x as [s|x], y as [t|y]; simpl in *; try done.
    - by rewrite My.
    - by rewrite Mx.
    - tauto. }
  assert ((x, y) ∈ zip ep ep_before) as Hin.
  { apply list_elem_of_lookup. exists i. by apply lookup_zip_Some. }
  destruct (map_cells_elem_raise cell_sub _ _ _ Hin Hcell) as [e Hsub].
  pose proof (series_sub_raise _ _ Hsub) as ->.
  by eapply calculate_epa_raise_run.
Qed.

Lemma calculate_epa_type_error_witness :
  let d := mkDataFrame 2 [("ep", [VNum F64.lit_0_3; VStr "n/a"]);
                          ("ep_before", [VNum F64.lit_0_1; VNum F64.lit_0_1])] in
  [d] !! 0 = Some d /\ empty d = false /\
  is_string (VStr "n/a") /\
  is_missing (VStr "n/a") = false /\ is_missing (VNum F64.lit_0_1) = false /\
  run (calculate_epa 0) [d] = (Raise TypeError, [d]).
Proof.
  intros d. split; [reflexivity|]. split; [reflexivity|]. split; [exact I|].
  split; [reflexivity|]. split; [reflexivity|].
  apply (calculate_epa_type_error [d] 0 d
           [VNum F64.lit_0_3; VStr "n/a"] [VNum F64.lit_0_1; VNum F64.lit_0_1]
           1 (VStr "n/a") (VNum F64.lit_0_1)); try reflexivity.
  left. exact I.
Defined.

Lemma columns_set_column (c : string) (s : Series) (d : DataFrame) :
  exists l, columns (set_column c s d) = columns d ++ l.
Proof.
  unfold columns, set_column. simpl. rewrite columns_assign.
  destruct (lookup_col c (data d)); [exists []; by rewrite app_nil_r | by eexists].
Qed.

Lemma columns_backfill (c : string) (v : value) (d : DataFrame) :
  exists l, columns (backfill c v d) = columns d ++ l.
Proof.
  unfold backfill. destruct (has_column c d).
  - exists []. by rewrite app_nil_r.
  - apply columns_set_column.
Qed.

(** X3.  What [calculate_epa] keeps on every path, returning or raising: the
    number of rows, the well-formedness of the frame, every column other
    than the four it may assign (efficiency, the two teams, the game
    identifier), and the order of the columns that were there: new columns
    only come after them. *)
Theorem calculate_epa_keeps (h : heap) (r : ref) (d : DataFrame) :
  h !! r = Some d ->
  exists d',
    snd (run (calculate_epa r) h) !! r = Some d' /\
    nrows d' = nrows d /\
    (wf d -> wf d') /\
    (forall c, c ∉ ["epa"; "defteam"; "posteam"; "game_id"] ->
               lookup_col c (data d') = lookup_col c (data d)) /\
    (exists added, columns d' = columns d ++ added).
Proof.
  intros H.
  destruct (calculate_epa_cases h r d H)
    as [(d' & -> & Hn & Hwf & Hform & _)|(e & -> & _)]; simpl.
  - exists d'. split; [by eapply lookup_updated|]. split; [done|]. split; [done|].
    destruct Hform as [->|[->|[epa ->]]].
    + split.
      * intros c Hc. unfold mock_columns. rewrite !lookup_set_scalar.
        repeat (case_decide; [subst; exfalso; apply Hc; repeat constructor|]). done.
      * unfold mock_columns, set_scalar.
        destruct (columns_set_column "epa" (replicate (nrows d) (VNum INITIAL_EPA)) d)
          as [l1 E1].
        set (d1 := set_column "epa" _ d) in *.
        destruct (columns_set_column "defteam" (replicate (nrows d1) (VStr "DEF")) d1)
          as [l2 E2].
        set (d2 := set_column "defteam" _ d1) in *.
        destruct (columns_set_column "posteam" (replicate (nrows d2) (VStr "OFF")) d2)
          as [l3 E3].
        set (d3 := set_column "posteam" _ d2) in *.
        destruct (columns_set_column "game_id" (replicate (nrows d3) (VStr "MOCK")) d3)
          as [l4 E4].
        exists (l1 ++ l2 ++ l3 ++ l4).
        rewrite E4, E3, E2, E1. by rewrite <- !app_assoc.
    + split.
      * intros c Hc. unfold placeholder_columns.
        rewrite !lookup_backfill, lookup_set_scalar.
        repeat (case_decide; [subst; exfalso; apply Hc; repeat constructor|]). done.
      * unfold placeholder_columns, set_scalar.
        destruct (columns_set_column "epa" (replicate (nrows d) (VNum INITIAL_EPA)) d)
          as [l1 E1].
        set (d1 := set_column "epa" _ d) in *.
        destruct (columns_backfill "defteam" (VStr "DEF") d1) as [l2 E2].
        set (d2 := backfill "defteam" _ d1) in *.
        destruct (columns_backfill "posteam" (VStr "OFF") d2) as [l3 E3].
        set (d3 := backfill "posteam" _ d2) in *.
        destruct (columns_backfill "game_id" (VStr "MOCK") d3) as [l4 E4].
        exists (l1 ++ l2 ++ l3 ++ l4).
        rewrite E4, E3, E2, E1. by rewrite <- !app_assoc.
    + split.
      * intros c Hc. rewrite lookup_set_column.
        case_decide; [subst; exfalso; apply Hc; repeat constructor | done].
      * apply columns_set_column.
  - exists d. split; [done|]. split; [done|]. split; [done|].
    split; [done|]. exists []. by rewrite app_nil_r.
Qed.

Lemma calculate_epa_keeps_witness :
  let d := mkDataFrame 2 [("week", [VNum F64.lit_0_1; VNum F64.lit_0_2]);
                          ("posteam", [VStr "A"; VStr "B"])] in
  [d] !! 0 = Some d /\
  exists d',
    snd (run (calculate_epa 0) [d]) !! 0 = Some d' /\
    nrows d' = nrows d /\
    (wf d -> wf d') /\
    (forall c, c ∉ ["epa"; "defteam"; "posteam"; "game_id"] ->
               lookup_col c (data d') = lookup_col c (data d)) /\
    (exists added, columns d' = columns d ++ added).
Proof.
  intros d. split; [reflexivity|].
  apply (calculate_epa_keeps [d] 0 d). reflexivity.
Defined.

(** ** [aggregate_net_epa]: errors, effects, shape of the result *)






(** X5.  [aggregate_net_epa] only reads its input: when it raises, the heap
    is as before the call; when it returns, the heap is the heap before the
    call followed by one new object, the frame returned. *)
Theorem aggregate_net_epa_reads_only (h : heap) (r : ref) :
  let out := run (aggregate_net_epa r) h in
  (exists e, fst out = Raise e /\ snd out = h) \/
  (exists d, fst out = Ok (length h) /\ snd out = h ++ [d] /\
             result_frame out = Some d).
Proof.
  destruct (aggregate_net_epa_cases h r)
    as [[e ->]|(d & G & P & D & E & ro & rd & _ & _ & _ & _ & _ & _ & _ & ->)]; simpl.
  - left. by eexists.
  - right. eexists. split; [done|]. split; [done|]. apply top_lookup.
Qed.

(** X6.  Every frame [aggregate_net_epa] returns is well formed and has
    exactly the five columns game_id, posteam, off_epa_per_play,
    def_epa_per_play, net_epa_per_play, in this order; the three per-play
    columns hold numbers only, and no label is missing in the two key
    columns. *)
Theorem aggregate_net_epa_shape (h : heap) (r : ref) (out : DataFrame) :
  result_frame (run (aggregate_net_epa r) h) = Some out ->
  wf out /\
  columns out = ["game_id"; "posteam"; "off_epa_per_play"; "def_epa_per_play";
                 "net_epa_per_play"] /\
  (forall c s v,
     c ∈ ["off_epa_per_play"; "def_epa_per_play"; "net_epa_per_play"] ->
     lookup_col c (data out) = Some s -> v ∈ s -> ~ is_string v) /\
  (forall c s v,
     c ∈ ["game_id"; "posteam"] ->
     lookup_col c (data out) = Some s -> v ∈ s -> v <> VNum F64.nan).
Proof.
  intros Hout.
  apply aggregate_net_epa_result_inv in Hout as (G & P & ro & rd & Hcan & ->).
  split; [apply wf_net_frame|]. split; [done|].
  split.
  - intros c s v Hc Hs Hv Hstr.
    apply elem_of_cons in Hc as [->|Hc].
    { simpl in Hs. injection Hs as <-.
      by apply list_elem_of_fmap_1 in Hv as (row & -> & _). }
    apply elem_of_cons in Hc as [->|Hc].
    { simpl in Hs. injection Hs as <-.
      by apply list_elem_of_fmap_1 in Hv as (row & -> & _). }
    apply elem_of_cons in Hc as [->|Hc].
    { simpl in Hs. injection Hs as <-.
      by apply list_elem_of_fmap_1 in Hv as (row & -> & _). }
    by apply elem_of_nil in Hc.
  - assert (forall row, row ∈ map (joined_row G P ro rd) (group_labels ro) ->
              net_game_id row <> VNum F64.nan /\ net_posteam row <> VNum F64.nan)
      as Hrows.
    { intros row Hrow. apply list_elem_of_fmap_1 in Hrow as (k & -> & Hk).
      apply group_labels_canonical in Hcan. rewrite Forall_forall in Hcan.
      destruct (Hcan k Hk) as [Ha Hb]. unfold joined_row. simpl.
      split; by apply level_label_not_nan. }
    intros c s v Hc Hs Hv.
    apply elem_of_cons in Hc as [->|Hc].
    { simpl in Hs. injection Hs as <-.
      apply list_elem_of_fmap_1 in Hv as (row & -> & Hrow). by apply Hrows. }
    apply elem_of_cons in Hc as [->|Hc].
    { simpl in Hs. injection Hs as <-.
      apply list_elem_of_fmap_1 in Hv as (row & -> & Hrow). by apply Hrows. }
    by apply elem_of_nil in Hc.
Qed.

Lemma aggregate_net_epa_shape_witness :
  let out := net_frame
               [mkNet (VStr "G1") (VStr "A") F64.lit_0_2 (F64.opp F64.lit_0_2) F64.zero;
                mkNet (VStr "G1") (VStr "B") F64.lit_0_2 (F64.opp F64.lit_0_2) F64.zero] in
  result_frame (run (aggregate_net_epa 0) [scenario_two_sided]) = Some out /\
  wf out /\
  columns out = ["game_id"; "posteam"; "off_epa_per_play"; "def_epa_per_play";
                 "net_epa_per_play"].
Proof.
  intros out.
  destruct (aggregate_net_epa_shape [scenario_two_sided] 0 out eq_refl)
    as (Hwf & Hcols & _).
  split; [reflexivity|]. by split.
Defined.

(** ** [generate_betting_recommendations]: errors and what is passed through *)


Lemma map_cells_length {A : Type} (f : A -> outcome value) (l : list A) (s : Series) :
  map_cells f l = Ok s -> length s = length l.
Proof.
  revert s. induction l as [|a l IH]; simpl; intros s.
  - by intros [= <-].
  - destruct (f a); [|done]. destruct (map_cells f l) as [rest|]; [|done].
    intros [= <-]. simpl. by rewrite (IH rest).
Qed.





Lemma select_cols_lookup_notin (cs : list string) (x : DataFrame) cols (c : string) :
  select_cols cs x = Ok cols -> c ∉ cs -> lookup_col c cols = None.
Proof.
  revert cols. induction cs as [|c0 cs IH]; simpl; intros cols Hsel Hc.
  - by injection Hsel as <-.
  - destruct (lookup_col c0 (data x)); [|done].
    destruct (select_cols cs x) as [rest|]; [|done].
    injection Hsel as <-. simpl.
    destruct (String.eqb c c0) eqn:E.
    + apply String.eqb_eq in E. subst. exfalso. apply Hc. constructor.
    + apply IH; [done|]. intros Hin. apply Hc. by constructor.
Qed.

Lemma select_cols_wf (cs : list string) (x : DataFrame) cols :
  wf x -> select_cols cs x = Ok cols -> wf (mkDataFrame (nrows x) cols).
Proof.
  intros Hwf. unfold wf at 1. simpl.
  revert cols. induction cs as [|c cs IH]; simpl; intros cols Hsel.
  - injection Hsel as <-. constructor.
  - destruct (lookup_col c (data x)) as [s|] eqn:Ec; [|done].
    destruct (select_cols cs x) as [rest|]; [|done].
    injection Hsel as <-. constructor; [|by apply IH].
    simpl. by eapply wf_lookup.
Qed.

(** What [recommendation_frame] builds from a frame [x]. *)
Lemma recommendation_frame_inv (x out : DataFrame) :
  recommendation_frame x = Ok out ->
  nrows out = nrows x /\
  (wf x -> wf out) /\
  (forall c, c ∈ ["game_id"; "posteam"; "off_epa_per_play"; "def_epa_per_play";
                  "net_epa_per_play"] ->
             is_Some (lookup_col c (data x)) /\
             lookup_col c (data out) = lookup_col c (data x)) /\
  (forall c, c ∉ recommendation_columns -> lookup_col c (data out) = None).
Proof.
  unfold recommendation_frame.
  destruct (lookup_col "net_epa_per_play" (data x)) as [net|] eqn:Hnet; [|done].
  destruct (series_apply bet_favorite_of net) as [bf|] eqn:Hbf; [|done].
  destruct (series_apply cell_abs net) as [conf|] eqn:Hconf; [|done].
  destruct (series_apply bet_type_of conf) as [bt|] eqn:Hbt; [|done].
  set (x3 := set_column "bet_type" _ _).
  destruct (select_cols recommendation_columns x3) as [cols|] eqn:Hcols; [|done].
  intros [= <-]. simpl. split; [done|]. split; [|split].
  - intros Hwf. apply (select_cols_wf recommendation_columns x3); [|done].
    apply map_cells_length in Hbf, Hconf, Hbt.
    pose proof (wf_lookup _ _ _ Hwf Hnet) as Ln.
    unfold x3. repeat apply wf_set_column; simpl; try done; congruence.
  - intros c Hc.
    assert (c ∈ recommendation_columns) as Hc'.
    { unfold recommendation_columns.
      repeat (apply elem_of_cons in Hc as [->|Hc]; [repeat constructor|]).
      by apply elem_of_nil in Hc. }
    destruct (select_cols_lookup _ _ _ c Hcols Hc') as [-> Hsome].
    assert (lookup_col c (data x3) = lookup_col c (data x)) as E.
    { unfold x3. rewrite !lookup_set_column.
      repeat (apply elem_of_cons in Hc as [->|Hc]; [done|]).
      by apply elem_of_nil in Hc. }
    by rewrite E in Hsome |- *.
  - intros c Hc. by eapply select_cols_lookup_notin.
Qed.



(** X8.  On a non-empty input, the table [generate_betting_recommendations]
    returns has the rows of the input: the same number of rows and, cell for
    cell, the same five columns game_id, posteam, off_epa_per_play,
    def_epa_per_play and net_epa_per_play; any other column of the input
    other than the three it computes is dropped, and a well-formed input
    gives a well-formed table. *)
Theorem generate_betting_recommendations_passes_rows (h : heap) (r : ref)
    (d out : DataFrame) :
  h !! r = Some d -> empty d = false ->
  result_frame (run (generate_betting_recommendations r) h) = Some out ->
  nrows out = nrows d /\
  (wf d -> wf out) /\
  (forall c, c ∈ ["game_id"; "posteam"; "off_epa_per_play"; "def_epa_per_play";
                  "net_epa_per_play"] ->
             is_Some (lookup_col c (data d)) /\
             lookup_col c (data out) = lookup_col c (data d)) /\
  (forall c, c ∉ ["game_id"; "posteam"; "off_epa_per_play"; "def_epa_per_play";
                  "net_epa_per_play"; "bet_favorite"; "confidence"; "bet_type"] ->
             lookup_col c (data out) = None).
Proof.
  intros H He Hout.
  rewrite (generate_betting_recommendations_result _ _ _ H), He in Hout.
  destruct (recommendation_frame d) as [o|] eqn:E; [|done].
  injection Hout as <-. by apply recommendation_frame_inv.
Qed.

Lemma generate_betting_recommendations_passes_rows_witness :
  let d := mkDataFrame 1
             [ ("week", [VNum F64.lit_0_1]);
               ("game_id", [VStr "G1"]); ("posteam", [VStr "A"]);
               ("off_epa_per_play", [VNum F64.lit_0_2]);
               ("def_epa_per_play", [VNum F64.lit_m0_01]);
               ("net_epa_per_play", [VNum F64.lit_0_08]) ] in
  [d] !! 0 = Some d /\ empty d = false /\
  exists out,
    result_frame (run (generate_betting_recommendations 0) [d]) = Some out /\
    nrows out = nrows d /\
    lookup_col "net_epa_per_play" (data out) = Some [VNum F64.lit_0_08] /\
    lookup_col "week" (data out) = None.
Proof.
  intros d. split; [reflexivity|]. split; [reflexivity|].
  eexists. split; [reflexivity|].
  match goal with
  | |- nrows ?o = _ /\ _ =>
      destruct (generate_betting_recommendations_passes_rows [d] 0 d o
                  eq_refl eq_refl eq_refl) as (Hn & _ & Hkeep & Hdrop)
  end.
  split; [exact Hn|]. split.
  - destruct (Hkeep "net_epa_per_play") as [_ ->]; [repeat constructor | reflexivity].
  - apply Hdrop. intros Hin.
    repeat (apply elem_of_cons in Hin as [Hin|Hin]; [discriminate Hin|]).
    by apply elem_of_nil in Hin.
Defined.

(** ** The aggregation followed by the recommendations *)

Lemma recommendation_frame_net_frame (rows : list net_row) :
  recommendation_frame (net_frame rows) = Ok (recommended rows).
Proof.
  unfold recommendation_frame, net_frame. cbn [data lookup_col String.eqb Ascii.eqb Bool.eqb].
  rewrite <- (map_map net_epa_per_play VNum).
  rewrite (series_apply_numbers bet_favorite_of
             (fun n => VStr (if F64.ltb F64.zero n then "Bet" else "Avoid"))) by done.
  rewrite (series_apply_numbers cell_abs (fun n => VNum (F64.abs n))) by done.
  rewrite <- (map_map F64.abs VNum).
  rewrite (series_apply_numbers bet_type_of
             (fun c => VStr (if F64.ltb F64.lit_0_05 c then "Spread" else "No Bet")))
    by done.
  unfold recommended. rewrite !map_map. reflexivity.
Qed.

Lemma group_labels_nil (rows : list (key * float64)) :
  group_labels rows = [] <-> rows = [].
Proof.
  split.
  - intros E. destruct rows as [|[k x] rows]; [done|].
    assert (k ∈ group_labels ((k, x) :: rows)) as Hin.
    { apply group_labels_elem. simpl. constructor. }
    rewrite E in Hin. by apply elem_of_nil in Hin.
  - by intros ->.
Qed.

Lemma empty_net_frame (rows : list net_row) :
  empty (net_frame rows) = match rows with [] => true | _ => false end.
Proof. by destruct rows. Qed.

Lemma pipeline_from_epa_result (h : heap) (r : ref) (d : DataFrame)
    (G P D E : Series) (ro rd : list (key * float64)) :
  h !! r = Some d ->
  lookup_col "game_id" (data d) = Some G ->
  lookup_col "posteam" (data d) = Some P ->
  lookup_col "defteam" (data d) = Some D ->
  lookup_col "epa" (data d) = Some E ->
  numeric_rows (keyed_rows G P E) = Ok ro ->
  numeric_rows (keyed_rows G D E) = Ok rd ->
  result_frame (run (pipeline_from_epa r) h) =
  Some (match ro with
        | [] => mock_table
        | _ => recommended (map (joined_row G P ro rd) (group_labels ro))
        end).
Proof.
  intros H HG HP HD HE Hro Hrd.
  unfold run, pipeline_from_epa, bind.
  pose proof (aggregate_net_epa_rows _ _ _ _ _ _ _ _ _ H HG HP HD HE Hro Hrd) as Hagg.
  unfold run in Hagg. rewrite Hagg.
  set (nf := net_frame _).
  pose proof (generate_betting_recommendations_result (h ++ [nf]) (length h) nf
                (top_lookup h nf)) as Hrec.
  unfold run in Hrec. rewrite Hrec. unfold nf. rewrite empty_net_frame.
  destruct ro as [|p ro'] eqn:Ero; [reflexivity|]. rewrite <- Ero.
  assert (group_labels ro <> []) as Hne.
  { rewrite group_labels_nil. by rewrite Ero. }
  destruct (group_labels ro) as [|k ks]; [done|].
  cbn [map]. by rewrite recommendation_frame_net_frame.
Qed.

(** *** Binary64 facts on signs *)

Lemma binary_round_aux_not_positive (m e : Z) (l : location) :
  ~ F64.positive (binary_round_aux F64.prec F64.emax true m e l).
Proof.
  unfold binary_round_aux.
  destruct (shr_fexp F64.prec F64.emax m e l) as [mrs e'].
  destruct (shr_fexp F64.prec F64.emax _ e' loc_Exact) as [mrs' e''].
  destruct (shr_m mrs'); simpl; try tauto.
  destruct (Z.leb e'' _); simpl; tauto.
Qed.

Lemma binary_normalize_positive (m e : Z) :
  F64.positive (binary_normalize F64.prec F64.emax m e false) -> (0 < m)%Z.
Proof.
  destruct m as [|p|p]; simpl; [tauto | lia |].
  unfold binary_round. destruct (shl_align _ _ _) as [mz ez].
  intros H. by apply binary_round_aux_not_positive in H.
Qed.

(** [x - y > 0] and [y - x > 0] never hold together, rounding included. *)
Lemma add_opp_not_both_positive (x y : float64) :
  F64.positive (F64.add x (F64.opp y)) ->
  ~ F64.positive (F64.add y (F64.opp x)).
Proof.
  unfold F64.add, F64.opp.
  destruct x as [sx|sx| |sx mx ex], y as [sy|sy| |sy my ey];
    try (destruct sx, sy; simpl; tauto);
    try (destruct sx; simpl; tauto);
    try (destruct sy; simpl; tauto);
    try (simpl; tauto).
  simpl. intros H1 H2.
  apply binary_normalize_positive in H1, H2.
  rewrite (Z.min_comm ey ex) in H2.
  destruct sx, sy; simpl in H1, H2; lia.
Qed.

Lemma add_zero_or_nan (x y : float64) :
  zero_or_nan x -> zero_or_nan y -> zero_or_nan (F64.add x y).
Proof. destruct x as [[]|[]| |[] ? ?], y as [[]|[]| |[] ? ?]; simpl; tauto. Qed.

Lemma div_zero_or_nan (x c : float64) :
  zero_or_nan x -> zero_or_nan (F64.div x c).
Proof. destruct x as [[]|[]| |[] ? ?], c as [[]|[]| |[] ? ?]; simpl; tauto. Qed.

Lemma opp_zero_or_nan (x : float64) : zero_or_nan x -> zero_or_nan (F64.opp x).
Proof. destruct x as [[]|[]| |[] ? ?]; simpl; tauto. Qed.

Lemma zero_or_nan_avoid (x : float64) :
  zero_or_nan x ->
  F64.ltb F64.zero x = false /\ F64.ltb F64.lit_0_05 (F64.abs x) = false.
Proof. destruct x as [[]|[]| |[] ? ?]; simpl; try tauto; by split. Qed.

(** ** A game between two teams *)

Lemma group_values_cons (k k' : key) (x : float64) (rows : list (key * float64)) :
  group_values k ((k', x) :: rows) =
  if decide (k' = k) then x :: group_values k rows else group_values k rows.
Proof. unfold group_values. rewrite filter_cons. simpl. by case_decide. Qed.

Lemma numeric_rows_cons_inv (k : key) (x : value) (tl : list (key * value))
    (ro : list (key * float64)) :
  numeric_rows ((k, x) :: tl) = Ok ro ->
  exists v ro', x = VNum v /\ ro = (k, v) :: ro' /\ numeric_rows tl = Ok ro'.
Proof.
  simpl. destruct x as [s|v]; [done|].
  destruct (numeric_rows tl) as [ro'|]; [|done].
  intros [= <-]. by exists v, ro'.
Qed.

(** When the plays of game [g] all oppose the same two teams, the plays a
    team defends are the plays the other team attacks. *)
Lemma group_values_opponent (G P D E : Series) (ro rd : list (key * float64))
    (g A B : value) :
  length P = length D ->
  numeric_rows (keyed_rows G P E) = Ok ro ->
  numeric_rows (keyed_rows G D E) = Ok rd ->
  A <> B ->
  (forall i a b c,
     G !! i = Some a -> P !! i = Some b -> D !! i = Some c ->
     group_key a = Some g ->
     (group_key b = Some A /\ group_key c = Some B) \/
     (group_key b = Some B /\ group_key c = Some A)) ->
  group_values (g, A) rd = group_values (g, B) ro.
Proof.
  intros Hlen Hro Hrd HAB Hrows.
  revert P D E ro rd Hlen Hro Hrd Hrows.
  induction G as [|a G IH]; intros P D E ro rd Hlen Hro Hrd Hrows.
  { simpl in Hro, Hrd. by injection Hro as <-; injection Hrd as <-. }
  destruct P as [|b P], D as [|c D]; try discriminate Hlen.
  { simpl in Hro, Hrd. by injection Hro as <-; injection Hrd as <-. }
  destruct E as [|x E].
  { simpl in Hro, Hrd. by injection Hro as <-; injection Hrd as <-. }
  injection Hlen as Hlen.
  assert (forall i a b c,
            G !! i = Some a -> P !! i = Some b -> D !! i = Some c ->
            group_key a = Some g ->
            (group_key b = Some A /\ group_key c = Some B) \/
            (group_key b = Some B /\ group_key c = Some A)) as Htl.
  { intros i. apply (Hrows (S i)). }
  specialize (IH P D E).
  pose proof (Hrows 0 a b c eq_refl eq_refl eq_refl) as Hhd.
  simpl in Hro, Hrd.
  destruct (group_key a) as [ga|] eqn:Ea.
  2: { destruct (group_key b), (group_key c); by apply IH. }
  destruct (decide (ga = g)) as [->|Hg].
  - destruct (Hhd eq_refl) as [[Eb Ec]|[Eb Ec]]; rewrite Eb in Hro; rewrite Ec in Hrd;
      apply numeric_rows_cons_inv in Hro as (v & ro' & -> & -> & Hro);
      apply numeric_rows_cons_inv in Hrd as (v' & rd' & [= <-] & -> & Hrd);
      rewrite !group_values_cons.
    + rewrite !decide_False by congruence. by apply IH.
    + rewrite !decide_True by done. f_equal. by apply IH.
  - clear Hhd.
    destruct (group_key b) as [kb|], (group_key c) as [kc|].
    + apply numeric_rows_cons_inv in Hro as (v & ro' & -> & -> & Hro).
      apply numeric_rows_cons_inv in Hrd as (v' & rd' & [= <-] & -> & Hrd).
      rewrite !group_values_cons, !decide_False by congruence. by apply IH.
    + apply numeric_rows_cons_inv in Hro as (v & ro' & -> & -> & Hro).
      rewrite !group_values_cons, !decide_False by congruence. by apply IH.
    + apply numeric_rows_cons_inv in Hrd as (v' & rd' & -> & -> & Hrd).
      rewrite !group_values_cons, !decide_False by congruence. by apply IH.
    + by apply IH.
Qed.

(** X10.  In a game whose plays all oppose the same two teams, one on
    offence and the other on defence, the defensive per-play value of each
    team is the negation of the offensive per-play value of the other, so
    the two net values are the two differences of the offensive values; and
    at most one of the two teams gets the decision "Bet". *)
Theorem aggregate_net_epa_two_teams (h : heap) (r : ref) (d : DataFrame)
    (G P D E : Series) (ro rd : list (key * float64)) (g A B : value) :
  h !! r = Some d ->
  lookup_col "game_id" (data d) = Some G ->
  lookup_col "posteam" (data d) = Some P ->
  lookup_col "defteam" (data d) = Some D ->
  lookup_col "epa" (data d) = Some E ->
  numeric_rows (keyed_rows G P E) = Ok ro ->
  numeric_rows (keyed_rows G D E) = Ok rd ->
  length P = length D ->
  A <> B ->
  (forall i a b c,
     G !! i = Some a -> P !! i = Some b -> D !! i = Some c ->
     group_key a = Some g ->
     (group_key b = Some A /\ group_key c = Some B) \/
     (group_key b = Some B /\ group_key c = Some A)) ->
  exists rows,
    run (aggregate_net_epa r) h = (Ok (length h), h ++ [net_frame rows]) /\
    forall rowA rowB,
      rowA ∈ rows -> rowB ∈ rows ->
      net_label rowA = (g, A) -> net_label rowB = (g, B) ->
      net_def_epa_per_play rowA = F64.opp (net_off_epa_per_play rowB) /\
      net_def_epa_per_play rowB = F64.opp (net_off_epa_per_play rowA) /\
      net_epa_per_play rowA =
        F64.add (net_off_epa_per_play rowA) (F64.opp (net_off_epa_per_play rowB)) /\
      net_epa_per_play rowB =
        F64.add (net_off_epa_per_play rowB) (F64.opp (net_off_epa_per_play rowA)) /\
      ~ (bet_favorite_of (VNum (net_epa_per_play rowA)) = Ok (VStr "Bet") /\
         bet_favorite_of (VNum (net_epa_per_play rowB)) = Ok (VStr "Bet")).
Proof.
  intros H HG HP HD HE Hro Hrd Hlen HAB Hrows.
  pose proof (numeric_rows_canonical _ _ _ _ Hro) as Hcan.
  exists (map (joined_row G P ro rd) (group_labels ro)).
  split; [by eapply aggregate_net_epa_rows|].
  intros rowA rowB HinA HinB HlA HlB.
  apply (joined_row_elem G P ro rd rowA Hcan) in HinA as [EA HkA].
  apply (joined_row_elem G P ro rd rowB Hcan) in HinB as [EB HkB].
  rewrite HlA in EA, HkA. rewrite HlB in EB, HkB.
  assert (group_values (g, A) rd = group_values (g, B) ro) as HswA.
  { by eapply group_values_opponent. }
  assert (group_values (g, B) rd = group_values (g, A) ro) as HswB.
  { eapply (group_values_opponent G P D E ro rd g B A); eauto.
    intros i a b c Ha Hb Hc Hg. destruct (Hrows i a b c Ha Hb Hc Hg); tauto. }
  assert ((g, A) ∈ map fst rd) as HdA.
  { apply group_values_nonempty. rewrite HswA. by apply group_values_nonempty. }
  assert ((g, B) ∈ map fst rd) as HdB.
  { apply group_values_nonempty. rewrite HswB. by apply group_values_nonempty. }
  assert (net_def_epa_per_play rowA = F64.opp (net_off_epa_per_play rowB)) as EdA.
  { rewrite EA, EB. unfold joined_row. rewrite !decide_True by done. simpl.
    by rewrite HswA, div_opp_l. }
  assert (net_def_epa_per_play rowB = F64.opp (net_off_epa_per_play rowA)) as EdB.
  { rewrite EA, EB. unfold joined_row. rewrite !decide_True by done. simpl.
    by rewrite HswB, div_opp_l. }
  assert (net_epa_per_play rowA =
          F64.add (net_off_epa_per_play rowA) (net_def_epa_per_play rowA)) as EnA.
  { by rewrite EA. }
  assert (net_epa_per_play rowB =
          F64.add (net_off_epa_per_play rowB) (net_def_epa_per_play rowB)) as EnB.
  { by rewrite EB. }
  rewrite EdA in EnA. rewrite EdB in EnB.
  split; [done|]. split; [done|]. split; [done|]. split; [done|].
  intros [HbA HbB]. simpl in HbA, HbB.
  destruct (F64.ltb F64.zero (net_epa_per_play rowA)) eqn:LA; [|done].
  destruct (F64.ltb F64.zero (net_epa_per_play rowB)) eqn:LB; [|done].
  apply gt_zero_positive in LA, LB. rewrite EnA in LA. rewrite EnB in LB.
  by apply add_opp_not_both_positive in LA.
Qed.

Lemma aggregate_net_epa_two_teams_witness :
  let d := scenario_two_sided in
  let G := [VStr "G1"; VStr "G1"; VStr "G1"] in
  let P := [VStr "A"; VStr "B"; VStr "A"] in
  let D := [VStr "B"; VStr "A"; VStr "B"] in
  let E := [VNum F64.lit_0_1; VNum F64.lit_0_2; VNum F64.lit_0_3] in
  let ro := [((VStr "G1", VStr "A"), F64.lit_0_1); ((VStr "G1", VStr "B"), F64.lit_0_2);
             ((VStr "G1", VStr "A"), F64.lit_0_3)] in
  let rd := [((VStr "G1", VStr "B"), F64.lit_0_1); ((VStr "G1", VStr "A"), F64.lit_0_2);
             ((VStr "G1", VStr "B"), F64.lit_0_3)] in
  [d] !! 0 = Some d /\
  numeric_rows (keyed_rows G P E) = Ok ro /\
  numeric_rows (keyed_rows G D E) = Ok rd /\
  length P = length D /\ VStr "A" <> VStr "B" /\
  exists rows,
    run (aggregate_net_epa 0) [d] = (Ok 1, [d] ++ [net_frame rows]) /\
    forall rowA rowB,
      rowA ∈ rows -> rowB ∈ rows ->
      net_label rowA = (VStr "G1", VStr "A") -> net_label rowB = (VStr "G1", VStr "B") ->
      net_def_epa_per_play rowA = F64.opp (net_off_epa_per_play rowB) /\
      ~ (bet_favorite_of (VNum (net_epa_per_play rowA)) = Ok (VStr "Bet") /\
         bet_favorite_of (VNum (net_epa_per_play rowB)) = Ok (VStr "Bet")).
Proof.
  intros d G P D E ro rd.
  assert (VStr "A" <> VStr "B") as HAB by discriminate.
  split; [reflexivity|]. split; [reflexivity|]. split; [reflexivity|].
  split; [reflexivity|]. split; [exact HAB|].
  destruct (aggregate_net_epa_two_teams [d] 0 d G P D E ro rd
              (VStr "G1") (VStr "A") (VStr "B")
              eq_refl eq_refl eq_refl eq_refl eq_refl eq_refl eq_refl eq_refl HAB)
    as (rows & Hrun & Hrows).
  { intros i a b c Ha Hb Hc _.
    destruct i as [|[|[|i]]]; simpl in Ha, Hb, Hc;
      try discriminate Ha;
      injection Ha as <-; injection Hb as <-; injection Hc as <-;
      [left | right | left]; by split. }
  exists rows. split; [exact Hrun|].
  intros rowA rowB HA HB HlA HlB.
  destruct (Hrows rowA rowB HA HB HlA HlB) as (H1 & _ & _ & _ & H5). by split.
Defined.






(** ** [main] *)

Lemma generate_betting_recommendations_columns (h : heap) (r : ref) (out : DataFrame) :
  result_frame (run (generate_betting_recommendations r) h) = Some out ->
  columns out = recommendation_columns.
Proof.
  destruct (h !! r) as [d|] eqn:H.
  - rewrite (generate_betting_recommendations_result _ _ _ H).
    destruct (recommendation_frame _) as [o|] eqn:E; [|done].
    intros [= <-]. by apply recommendation_frame_columns in E.
  - by rewrite generate_betting_recommendations_dangling.
Qed.


(** The table [main] prints, stage by stage. *)
Lemma main_result (nfl : upstream) (season : Z) (log : list (list Z)) (h : heap) :
  fst (run (main nfl season) (log, h)) =
  match fst (run (fetch_pbp_data nfl season) log) with
  | Raise e => Raise e
  | Ok d =>
      match run (calculate_epa (length h)) (h ++ [d]) with
      | (Raise e, _) => Raise e
      | (Ok p, h1) =>
          match run (pipeline_from_epa p) h1 with
          | (Raise e, _) => Raise e
          | (Ok t, h2) =>
              match h2 !! t with
              | Some out => Ok (head_rows 10 out)
              | None => Raise (OtherError "no object at this address")
              end
          end
      end
  end.
Proof.
  unfold run, main, pipeline_from_epa, on_requests, on_heap, head_frame, bind, alloc.
  simpl.
  destruct (fetch_pbp_data nfl season log) as [[d|e] log']; [|done]. simpl.
  destruct (calculate_epa (length h) (h ++ [d])) as [[p|e] h1]; [|done]. simpl.
  destruct (aggregate_net_epa p h1) as [[n|e] h2]; [|done]. simpl.
  destruct (generate_betting_recommendations n h2) as [[t|e] h3]; [|done]. simpl.
  unfold load at 1. destruct (h3 !! t) as [out|] eqn:Ht; [|done]. simpl.
  unfold load. by rewrite top_lookup.
Qed.

Lemma load_state (r : ref) (h : heap) : exists o, load r h = (o, h).
Proof. unfold load. destruct (h !! r); by eexists. Qed.

(** The effects of [main]: the requests are those of the fetch, and the heap
    only grows. *)
Lemma main_state (nfl : upstream) (season : Z) (log : list (list Z)) (h : heap) :
  exists o fresh,
    run (main nfl season) (log, h) =
    (o, (snd (run (fetch_pbp_data nfl season) log), h ++ fresh)).
Proof.
  unfold run, main, on_requests, on_heap, head_frame, bind, alloc. simpl.
  destruct (fetch_pbp_data nfl season log) as [[d|e] log'] eqn:Ef; simpl.
  2: { exists (Raise e), []. by rewrite app_nil_r. }
  assert (exists d1, snd (calculate_epa (length h) (h ++ [d])) = h ++ [d1]) as [d1 E1].
  { destruct (calculate_epa_cases (h ++ [d]) (length h) d (top_lookup h d))
      as [(d' & E & _)|(e & E & _)]; unfold run in E; rewrite E; simpl.
    - exists d'. apply top_update.
    - by exists d. }
  destruct (calculate_epa (length h) (h ++ [d])) as [[p|e] h1]; simpl in E1; subst h1;
    simpl; [|by eexists _, _].
  assert (exists l, snd (aggregate_net_epa p (h ++ [d1])) = (h ++ [d1]) ++ l) as [l2 E2].
  { destruct (aggregate_net_epa_cases (h ++ [d1]) p)
      as [[e E]|(? & ? & ? & ? & ? & ? & ? & _ & _ & _ & _ & _ & _ & _ & E)];
      unfold run in E; rewrite E; simpl.
    - exists []. by rewrite app_nil_r.
    - by eexists. }
  destruct (aggregate_net_epa p (h ++ [d1])) as [[n|e] h2]; simpl in E2; subst h2;
    simpl; [|rewrite <- app_assoc; by eexists _, _].
  destruct (generate_betting_recommendations_heap ((h ++ [d1]) ++ l2) n) as [l3 E3].
  unfold run in E3.
  destruct (generate_betting_recommendations n ((h ++ [d1]) ++ l2)) as [[t|e] h3];
    simpl in E3; subst h3; simpl; [|rewrite <- !app_assoc; by eexists _, _].
  destruct (load_state t (((h ++ [d1]) ++ l2) ++ l3)) as [[out|e] ->]; simpl;
    [|rewrite <- !app_assoc; by eexists _, _].
  destruct (load_state (length (((h ++ [d1]) ++ l2) ++ l3))
              ((((h ++ [d1]) ++ l2) ++ l3) ++ [head_rows 10 out])) as [o ->].
  simpl. rewrite <- !app_assoc. by eexists _, _.
Qed.

Lemma lookup_head_rows (c : string) (n : nat) (d : DataFrame) :
  lookup_col c (data (head_rows n d)) = take n <$> lookup_col c (data d).
Proof.
  unfold head_rows. simpl. induction (data d) as [|[c' s] tl IH]; simpl; [done|].
  by destruct (String.eqb c c').
Qed.

Lemma columns_head_rows (n : nat) (d : DataFrame) :
  columns (head_rows n d) = columns d.
Proof.
  unfold columns, head_rows. simpl. rewrite map_map. by apply map_ext.
Qed.

(** X11.  What [main] does besides printing: it contacts the upstream source
    once or twice, first for the season asked and then at most once for
    2024, exactly as its fetch does; it changes no frame that existed before
    the call; and when the fetch raises, it raises the same error without
    having built anything. *)
Theorem main_effects (nfl : upstream) (season : Z) (log : list (list Z)) (h : heap) :
  let out := run (main nfl season) (log, h) in
  fst (snd out) = snd (run (fetch_pbp_data nfl season) log) /\
  (fst (snd out) = log ++ [[season]] \/
   fst (snd out) = log ++ [[season]; [2024%Z]]) /\
  (exists fresh, snd (snd out) = h ++ fresh) /\
  (forall r d, h !! r = Some d -> snd (snd out) !! r = Some d) /\
  (forall e, fst (run (fetch_pbp_data nfl season) log) = Raise e ->
             out = (Raise e, (snd (run (fetch_pbp_data nfl season) log), h))).
Proof.
  destruct (main_state nfl season log h) as (o & fresh & E).
  simpl. rewrite E. simpl.
  split; [done|]. split.
  { unfold run, fetch_pbp_data, try_except, bind, import_pbp_data, ret, raise,
      LATEST_AVAILABLE_SEASON.
    destruct (nfl log [season]) as [d|e]; [destruct (empty d)|]; simpl; auto;
      right; destruct (nfl (log ++ [[season]]) [2024%Z]); simpl;
      by rewrite <- app_assoc. }
  split; [by exists fresh|]. split.
  { intros r d H. rewrite lookup_app_l; [done|]. by eapply lookup_lt_Some. }
  intros e He. rewrite <- E. clear E.
  unfold run in *. unfold main, on_requests. unfold bind at 1. simpl fst.
  destruct (fetch_pbp_data nfl season log) as [[d|e'] log']; simpl in *; [done|].
  by injection He as ->.
Qed.

(** X12.  When the frame the fetch delivers has no row, [main] prints exactly
    the two mock recommendations, whatever columns that frame has. *)
Theorem main_without_plays (nfl : upstream) (season : Z) (log : list (list Z))
    (h : heap) (d : DataFrame) :
  fst (run (fetch_pbp_data nfl season) log) = Ok d ->
  nrows d = 0 ->
  fst (run (main nfl season) (log, h)) = Ok mock_table.
Proof.
  intros Hfetch Hn. rewrite main_result, Hfetch.
  assert (empty d = true) as He by (unfold empty; by rewrite Hn).
  rewrite (calculate_epa_empty_run _ _ _ (top_lookup h d) He), top_update.
  set (d1 := mock_columns d).
  assert (forall c, c ∈ ["game_id"; "posteam"; "defteam"; "epa"] ->
                    lookup_col c (data d1) = Some []) as Hcols.
  { intros c Hc. unfold d1, mock_columns. rewrite !lookup_set_scalar. simpl.
    rewrite Hn.
    repeat (apply elem_of_cons in Hc as [->|Hc]; [done|]).
    by apply elem_of_nil in Hc. }
  pose proof (pipeline_from_epa_result (h ++ [d1]) (length h) d1 [] [] [] [] [] []
                (top_lookup h d1)
                (Hcols "game_id" ltac:(repeat constructor))
                (Hcols "posteam" ltac:(repeat constructor))
                (Hcols "defteam" ltac:(repeat constructor))
                (Hcols "epa" ltac:(repeat constructor))
                eq_refl eq_refl) as Hres.
  destruct (run (pipeline_from_epa (length h)) (h ++ [d1])) as [[t|e] h2];
    simpl in Hres; [|done].
  by rewrite Hres.
Qed.

Lemma main_without_plays_witness :
  let d := mkDataFrame 0 [("ep", []); ("posteam", [])] in
  fst (run (fetch_pbp_data (serving d) 2025) []) = Ok d /\
  nrows d = 0 /\
  fst (run (main (serving d) 2025) ([], [])) = Ok mock_table.
Proof.
  intros d. split; [reflexivity|]. split; [reflexivity|].
  apply (main_without_plays (serving d) 2025 [] [] d); reflexivity.
Defined.

(** X13.  The table [main] prints is made of the first ten rows of the frame
    that [generate_betting_recommendations] returns on the frame that
    [aggregate_net_epa] returns on the fetched frame as [calculate_epa]
    leaves it: the same eight columns in the same order, each cut after its
    tenth cell. *)
Theorem main_prints_head (nfl : upstream) (season : Z) (log : list (list Z))
    (h : heap) (table : DataFrame) :
  fst (run (main nfl season) (log, h)) = Ok table ->
  exists fetched pbp_data net_epa recommendations,
    fst (run (fetch_pbp_data nfl season) log) = Ok fetched /\
    run (calculate_epa (length h)) (h ++ [fetched]) =
      (Ok (length h), h ++ [pbp_data]) /\
    run (aggregate_net_epa (length h)) (h ++ [pbp_data]) =
      (Ok (S (length h)), h ++ [pbp_data; net_epa]) /\
    result_frame (run (generate_betting_recommendations (S (length h)))
                      (h ++ [pbp_data; net_epa])) = Some recommendations /\
    table = head_rows 10 recommendations /\
    columns table = ["game_id"; "posteam"; "off_epa_per_play"; "def_epa_per_play";
                     "net_epa_per_play"; "bet_favorite"; "confidence"; "bet_type"] /\
    nrows table = Nat.min 10 (nrows recommendations) /\
    (forall c s, lookup_col c (data recommendations) = Some s ->
                 lookup_col c (data table) = Some (take 10 s)).
Proof.
  rewrite main_result.
  destruct (fst (run (fetch_pbp_data nfl season) log)) as [d|] eqn:Hf; [|done].
  destruct (calculate_epa_cases (h ++ [d]) (length h) d (top_lookup h d))
    as [(d1 & E1 & _)|(e & E1 & _)]; rewrite E1; [|done].
  rewrite top_update.
  destruct (aggregate_net_epa_cases (h ++ [d1]) (length h))
    as [[e E2]|(? & ? & ? & ? & ? & ? & ? & _ & _ & _ & _ & _ & _ & _ & E2)].
  { unfold run, pipeline_from_epa, bind in *. by rewrite E2. }
  set (net := net_frame _) in E2.
  assert (length (h ++ [d1]) = S (length h)) as Hlen
      by (rewrite length_app; simpl; lia).
  rewrite Hlen, <- app_assoc in E2. simpl in E2.
  unfold run at 1, pipeline_from_epa, bind. unfold run in E2. rewrite E2.
  destruct (generate_betting_recommendations (S (length h)) (h ++ [d1; net]))
    as [[t|e] h2] eqn:E3; [|done].
  destruct (h2 !! t) as [out|] eqn:Ht; [|done].
  intros [= <-].
  assert (result_frame (run (generate_betting_recommendations (S (length h)))
                            (h ++ [d1; net])) = Some out) as Hout.
  { unfold run. by rewrite E3. }
  exists d, d1, net, out.
  split; [done|]. split; [by rewrite top_update in E1|]. split; [done|].
  split; [done|]. split; [done|]. split.
  { rewrite columns_head_rows.
    by apply (generate_betting_recommendations_columns _ _ _ Hout). }
  split; [done|].
  intros c s Hs. by rewrite lookup_head_rows, Hs.
Qed.

(** Eleven teams: the eleventh recommendation is not printed. *)
Lemma main_prints_head_witness :
  exists table recommendations,
    fst (run (main (serving plays_of_eleven_teams) 2025) ([], [])) = Ok table /\
    table = head_rows 10 recommendations /\
    nrows recommendations = 11 /\ nrows table = 10 /\
    lookup_col "posteam" (data recommendations) =
      Some (map VStr ["A"; "B"; "C"; "D"; "E"; "F"; "G"; "H"; "I"; "J"; "K"]) /\
    lookup_col "posteam" (data table) =
      Some (map VStr ["A"; "B"; "C"; "D"; "E"; "F"; "G"; "H"; "I"; "J"]).
Proof.
  eexists.
  destruct (main_prints_head (serving plays_of_eleven_teams) 2025 [] [] _ eq_refl)
    as (fetched & pbp_data & net_epa & recs & Hf & Hp & Hn & Hrecs & Htable & _).
  exists recs. split; [reflexivity|]. split; [exact Htable|].
  vm_compute in Hf. injection Hf as <-.
  vm_compute in Hp. injection Hp as <-.
  vm_compute in Hn. injection Hn as <-.
  vm_compute in Hrecs. injection Hrecs as <-. by repeat split.
Defined.

(** ** The degraded mode, end to end *)

Lemma numeric_rows_constant (G P : Series) (n : nat) (z : float64) :
  exists ro, numeric_rows (keyed_rows G P (replicate n (VNum z))) = Ok ro /\
             Forall (fun p => snd p = z) ro.
Proof.
  revert P n. induction G as [|a G IH]; intros [|b P] [|n]; simpl;
    try (by exists []).
  destruct (IH P n) as (ro & Hro & Hall).
  destruct (group_key a), (group_key b); simpl; rewrite ?Hro; eauto.
Qed.

Lemma group_values_constant (k : key) (z : float64) (ro : list (key * float64)) :
  Forall (fun p => snd p = z) ro -> Forall (fun x => x = z) (group_values k ro).
Proof.
  induction 1 as [|[k' x] ro Hx _ IH]; [constructor|].
  rewrite group_values_cons. case_decide; [constructor|]; done.
Qed.

Lemma agg_sum_zeros (xs : list float64) :
  Forall (fun x => x = F64.zero) xs -> agg_sum xs = F64.zero.
Proof.
  unfold agg_sum. induction 1 as [|x xs -> _ IH]; [done|].
  cbn [fold_left].
  by change (kahan_step (F64.zero, F64.zero) F64.zero) with (F64.zero, F64.zero).
Qed.

Lemma joined_row_zero_or_nan (G P : Series) (ro rd : list (key * float64)) (k : key) :
  Forall (fun p => snd p = F64.zero) ro ->
  Forall (fun p => snd p = F64.zero) rd ->
  zero_or_nan (net_epa_per_play (joined_row G P ro rd k)).
Proof.
  intros Ho Hd. unfold joined_row. simpl.
  apply add_zero_or_nan.
  - apply div_zero_or_nan.
    rewrite (agg_sum_zeros _ (group_values_constant k _ _ Ho)). exact I.
  - destruct (decide (k ∈ map fst rd)); simpl; [|exact I].
    apply div_zero_or_nan.
    rewrite (agg_sum_zeros _ (group_values_constant k _ _ Hd)). exact I.
Qed.

(** The columns the degraded branches leave: the three keys are there and
    the efficiency is 0.0 on every row. *)
Lemma degraded_columns (d d' : DataFrame) :
  d' = mock_columns d \/ d' = placeholder_columns d ->
  exists G P D,
    lookup_col "game_id" (data d') = Some G /\
    lookup_col "posteam" (data d') = Some P /\
    lookup_col "defteam" (data d') = Some D /\
    lookup_col "epa" (data d') = Some (replicate (nrows d) (VNum F64.zero)).
Proof.
  intros [->| ->].
  - unfold mock_columns. eexists _, _, _. by rewrite !lookup_set_scalar.
  - unfold placeholder_columns. eexists _, _, _.
    by rewrite !lookup_backfill, !lookup_set_scalar.
Qed.

(** X14.  In degraded mode (the frame the fetch delivers is empty, or lacks
    the pre-play or the post-play column) [main] always prints a table and
    never recommends a bet on the data: the table is either the two mock
    rows, or every one of its rows has the decision "Avoid" and the bet-type
    "No Bet". *)
Theorem main_degraded_never_bets (nfl : upstream) (season : Z)
    (log : list (list Z)) (h : heap) (d : DataFrame) :
  fst (run (fetch_pbp_data nfl season) log) = Ok d ->
  empty d = true \/ has_column "ep" d = false \/ has_column "ep_before" d = false ->
  exists table,
    fst (run (main nfl season) (log, h)) = Ok table /\
    (table = mock_table \/
     exists decisions types,
       lookup_col "bet_favorite" (data table) = Some decisions /\
       lookup_col "bet_type" (data table) = Some types /\
       0 < nrows table /\
       Forall (fun v => v = VStr "Avoid") decisions /\
       Forall (fun v => v = VStr "No Bet") types).
Proof.
  intros Hfetch Hdeg. rewrite main_result, Hfetch.
  destruct (calculate_epa_cases (h ++ [d]) (length h) d (top_lookup h d))
    as [(d1 & -> & _ & _ & _ & Hform)|(e & _ & He & Hep & Hbefore)].
  2: { destruct Hdeg as [?|[?|?]]; congruence. }
  rewrite top_update. specialize (Hform Hdeg).
  destruct (degraded_columns d d1 Hform) as (G & P & D & HG & HP & HD & HE).
  destruct (numeric_rows_constant G P (nrows d) F64.zero) as (ro & Hro & Hzo).
  destruct (numeric_rows_constant G D (nrows d) F64.zero) as (rd & Hrd & Hzd).
  pose proof (pipeline_from_epa_result (h ++ [d1]) (length h) d1 G P D _ ro rd
                (top_lookup h d1) HG HP HD HE Hro Hrd) as Hres.
  destruct (run (pipeline_from_epa (length h)) (h ++ [d1])) as [[t|e] h2];
    simpl in Hres; [|done].
  rewrite Hres. eexists. split; [reflexivity|].
  destruct ro as [|p ro'] eqn:Ero; [by left|]. rewrite <- Ero in *. right.
  set (rows := map (joined_row G P ro rd) (group_labels ro)).
  assert (Forall (fun row => zero_or_nan (net_epa_per_play row)) rows) as Hnets.
  { unfold rows. apply Forall_forall. intros row Hrow.
    apply list_elem_of_fmap_1 in Hrow as (k & -> & _).
    by apply joined_row_zero_or_nan. }
  assert (0 < length rows) as Hpos.
  { unfold rows. rewrite length_map.
    assert (group_labels ro <> []) as Hl by (rewrite group_labels_nil; congruence).
    destruct (group_labels ro); [done | simpl; lia]. }
  eexists _, _.
  split; [rewrite lookup_head_rows; reflexivity|].
  split; [rewrite lookup_head_rows; reflexivity|].
  split; [change (0 < Nat.min 10 (length rows)); lia|].
  split; apply Forall_take, Forall_forall; intros v Hv;
    apply list_elem_of_fmap_1 in Hv as (row & -> & Hrow);
    rewrite Forall_forall in Hnets;
    destruct (zero_or_nan_avoid _ (Hnets row Hrow)) as [E1 E2];
    rewrite ?E1, ?E2; done.
Qed.

Lemma main_degraded_never_bets_witness :
  let d := plays_without_points in
  fst (run (fetch_pbp_data (serving d) 2025) []) = Ok d /\
  has_column "ep" d = false /\
  exists table,
    fst (run (main (serving d) 2025) ([], [])) = Ok table /\
    lookup_col "bet_favorite" (data table) = Some [VStr "Avoid"; VStr "Avoid"] /\
    lookup_col "bet_type" (data table) = Some [VStr "No Bet"; VStr "No Bet"].
Proof.
  intros d. split; [reflexivity|]. split; [reflexivity|].
  destruct (main_degraded_never_bets (serving d) 2025 [] [] d eq_refl
              (or_intror (or_introl eq_refl))) as (table & Hrun & _).
  exists table. split; [exact Hrun|].
  vm_compute in Hrun. injection Hrun as <-. by split.
Defined.

(** ** The normal mode, end to end *)


